(** * tdta.tdt_export: reconstruction of a CAS document from TDT tables

    A shallow embedding of [src/tdta/tdt_export.py].  Python objects are
    instances with a class name and an instance dictionary ([__dict__]);
    in-place mutation is explicit state passing, and an exception leaves the
    state as it was when it was raised.  Every object of the document is
    built for one row and stored in one place, and the decoders return new
    values, so the document is a tree: a change of an object reached through
    the document is a replacement at its position, written back to the
    instance dictionary that holds it.  The database is a finite map from
    view names to query results. *)

From stdpp Require Import gmap strings list.
From Stdlib Require Import ZArith Ascii DecimalString.

#[local] Open Scope Z_scope.
#[local] Set Warnings "-register-all".

(** ** Values *)

(** A cell of a row returned by [sqlite3]: NULL, INTEGER or TEXT.  (REAL and
    BLOB cells are outside the model; the views of the tool hold text.) *)
Inductive cell :=
| CNull
| CInt (z : Z)
| CText (s : string).

(** An instance of a class: its class name and its [__dict__]. *)
Record instance (V : Type) := Instance {
  ob_class : string;
  ob_dict : gmap string V
}.
Arguments Instance {V} _ _.
Arguments ob_class {V} _.
Arguments ob_dict {V} _.

(** Python values that the export builds or decodes. *)
Inductive pyval :=
| VNone
| VBool (b : bool)
| VInt (z : Z)
| VStr (s : string)
| VList (l : list pyval)
| VTuple (l : list pyval)
| VDict (kvs : list (pyval * pyval))
| VObj (o : instance pyval).

Abbreviation pyobj := (instance pyval).

Inductive exn :=
| AttributeError
| IndexError
| KeyError
| TypeError
| ValueError
| SyntaxError
| JSONDecodeError
| OperationalError.

(** The result of evaluating an expression: a value or a raised exception. *)
Inductive outcome (A : Type) :=
| Ok (a : A)
| Raise (e : exn).
Arguments Ok {A} _.
Arguments Raise {A} _.

#[global] Instance exn_eq_dec : EqDecision exn.
Proof. solve_decision. Defined.

#[global] Instance cell_eq_dec : EqDecision cell.
Proof. solve_decision. Defined.

(** ** Statements: state passing with exceptions

    A statement runs on the object it mutates and returns the mutated object
    together with its result; after [Raise] the state is the one reached when
    the exception was raised. *)
Definition M (S A : Type) : Type := S → outcome A * S.

Definition ret {S A} (a : A) : M S A := λ s, (Ok a, s).

Definition bind {S A B} (m : M S A) (k : A → M S B) : M S B :=
  λ s, match m s with
       | (Ok a, s') => k a s'
       | (Raise e, s') => (Raise e, s')
       end.

Definition lift {S A} (r : outcome A) : M S A := λ s, (r, s).

Definition get {S} : M S S := λ s, (Ok s, s).

Definition modify {S} (f : S → S) : M S unit := λ s, (Ok tt, f s).

Notation "x <~ m ;; k" := (bind m (λ x, k))
  (at level 100, m at next level, right associativity).
Notation "m ;;; k" := (bind m (λ _, k))
  (at level 100, right associativity).

(** [for x in xs: body(x)] *)
Fixpoint for_each {S X} (xs : list X) (body : X → M S unit) : M S unit :=
  match xs with
  | [] => ret tt
  | x :: xs' => body x ;;; for_each xs' body
  end.

(** ** Built-ins *)

(** [l.index(x)]: position of the first element equal to [x]. *)
Fixpoint index_of (x : string) (l : list string) : option nat :=
  match l with
  | [] => None
  | y :: l' => if String.eqb x y then Some 0%nat else S <$> index_of x l'
  end.

(** [x in l] for a list of strings. *)
Definition contains (l : list string) (x : string) : bool :=
  bool_decide (x ∈ l).

Definition startswith (p s : string) : bool := String.prefix p s.

(** [s.endswith(suf)] *)
Definition endswith (suf s : string) : bool :=
  (String.length suf <=? String.length s)%nat &&
  String.eqb (String.substring (String.length s - String.length suf) (String.length suf) s) suf.

(** [s.endswith(tuple(sufs))] *)
Definition endswith_any (sufs : list string) (s : string) : bool :=
  existsb (λ suf, endswith suf s) sufs.

(** [s.replace(old, "")]: every non-overlapping occurrence of [old], from the
    left, is dropped.  [skip] counts the characters of a match still to drop. *)
Fixpoint remove_all_from (old : string) (skip : nat) (s : string) : string :=
  match s with
  | EmptyString => EmptyString
  | String a s' =>
      match skip with
      | S k => remove_all_from old k s'
      | O => if String.prefix old s
             then remove_all_from old (String.length old - 1) s'
             else String a (remove_all_from old O s')
      end
  end.

Definition str_remove (old s : string) : string := remove_all_from old O s.

(** Truth value of a cell: [None], [0] and [''] are false. *)
Definition cell_truthy (c : cell) : bool :=
  match c with
  | CNull => false
  | CInt z => negb (z =? 0)
  | CText s => negb (String.eqb s "")
  end.

(** Truth value of a value. *)
Definition truthy (v : pyval) : bool :=
  match v with
  | VNone => false
  | VBool b => b
  | VInt z => negb (z =? 0)
  | VStr s => negb (String.eqb s "")
  | VList l | VTuple l => match l with [] => false | _ => true end
  | VDict kvs => match kvs with [] => false | _ => true end
  | VObj _ => true
  end.

Definition of_cell (c : cell) : pyval :=
  match c with
  | CNull => VNone
  | CInt z => VInt z
  | CText s => VStr s
  end.

(** [str(c)] *)
Definition str (c : cell) : string :=
  match c with
  | CNull => "None"
  | CInt z => NilZero.string_of_int (Z.to_int z)
  | CText s => s
  end.

(** [v == c] for a value and a cell ([True == 1] holds in Python). *)
Definition eq_cell (v : pyval) (c : cell) : bool :=
  match c, v with
  | CNull, VNone => true
  | CInt z, VInt z' => z' =? z
  | CInt z, VBool b => (if b then 1 else 0) =? z
  | CText s, VStr s' => String.eqb s' s
  | _, _ => false
  end.

(** [row[columns.index(name)]] *)
Definition row_at (columns : list string) (row : list cell) (name : string)
  : outcome cell :=
  match index_of name columns with
  | None => Raise ValueError
  | Some i => match row !! i with
              | Some c => Ok c
              | None => Raise IndexError
              end
  end.

(** [for x in v]: the elements iterated over. *)
Definition py_iter (v : pyval) : outcome (list pyval) :=
  match v with
  | VList l | VTuple l => Ok l
  | VDict kvs => Ok (kvs.*1)
  | VStr s => Ok ((λ a, VStr (String a EmptyString)) <$> String.list_ascii_of_string s)
  | _ => Raise TypeError
  end.

(** Lookup of a string key in the pairs of a dict. *)
Fixpoint dict_get (kvs : list (pyval * pyval)) (k : string) : option pyval :=
  match kvs with
  | [] => None
  | (VStr k', v) :: kvs' => if String.eqb k' k then Some v else dict_get kvs' k
  | _ :: kvs' => dict_get kvs' k
  end.

(** [v[k]] for a string key [k]. *)
Definition getitem (v : pyval) (k : string) : outcome pyval :=
  match v with
  | VDict kvs => match dict_get kvs k with
                 | Some x => Ok x
                 | None => Raise KeyError
                 end
  | _ => Raise TypeError
  end.

(** [v in columns] for a list of column names. *)
Definition in_columns (v : pyval) (columns : list string) : option string :=
  match v with
  | VStr s => if contains columns s then Some s else None
  | _ => None
  end.

(** ** The database

    A view answers [SELECT * FROM view] with its column names
    ([cursor.description]) and its rows ([fetchall()]). *)
Record view := View {
  columns : list string;
  rows : list (list cell)
}.

Definition CONFLICT_TBL_EXT : string := "_conflict".

Definition cas_table_postfixes : list string :=
  ["_annotation"; "_labelset"; "_metadata"; "_annotation_transfer"].

(** [cursor.execute("SELECT * FROM " + name)] on a database [db].  The
    database is given by the views it answers with, found by the exact text
    [name]; a text without an answer is an [sqlite3.OperationalError].  How
    sqlite itself reads the text (names without regard to case, a text with a
    space as a name and an alias) is not modelled: the properties take the
    answer to a lookup as a hypothesis and compare no two databases. *)
Definition select_all (db : gmap string view) (name : string) : outcome view :=
  match db !! name with
  | Some v => Ok v
  | None => Raise OperationalError
  end.

(** Files written and lines printed by the export. *)
Inductive event :=
| Written (path : string) (doc : pyobj) (indent : bool)
| Printed (line : string).

(** ** What the module imports

    The classes of [ctat.cell_type_annotation] and the decoders of the
    standard library are not part of the repository: the code is modelled over
    any class table and any pair of decoders. *)
Class Imports := {
  (** the value of a class-level attribute (a method, a default) of a class,
      seen by [hasattr] but not by [vars] *)
  class_attr : string → string → option pyval;
  (** the [__dict__] of the instance that a class builds from its arguments *)
  class_init : string → list pyval → gmap string pyval;
  (** [ast.literal_eval(s)] on a string *)
  literal_eval : string → outcome pyval;
  (** [json.loads(s)] on a string *)
  json_loads : string → outcome pyval
}.

Section tdt_export.

Context `{Imports}.

Definition new (cls : string) (args : list pyval) : pyobj :=
  Instance cls (class_init cls args).

(** [getattr(o, name)]: the instance dictionary first, then the class. *)
Definition getattr (o : pyobj) (name : string) : option pyval :=
  match ob_dict o !! name with
  | Some v => Some v
  | None => class_attr (ob_class o) name
  end.

Definition hasattr (o : pyobj) (name : string) : bool :=
  bool_decide (is_Some (getattr o name)).

(** [setattr(o, name, v)] writes the instance dictionary. *)
Definition setattr (name : string) (v : pyval) (o : pyobj) : pyobj :=
  Instance (ob_class o) (<[name := v]> (ob_dict o)).

(** [vars(o)] *)
Definition vars (o : pyobj) : gmap string pyval := ob_dict o.

(** [v.name] on any value. *)
Definition val_getattr (v : pyval) (name : string) : outcome pyval :=
  match v with
  | VObj o => match getattr o name with
              | Some x => Ok x
              | None => Raise AttributeError
              end
  | _ => Raise AttributeError
  end.

(** [json.loads(c)] on a cell: only text is decoded. *)
Definition json_loads_cell (c : cell) : outcome pyval :=
  match c with
  | CText s => json_loads s
  | _ => Raise TypeError
  end.

(** Lines 168-171: the value assigned for a true cell.  Only a string has
    [startswith]; a bracketed string goes through [ast.literal_eval]. *)
Definition coerce (value : cell) : outcome pyval :=
  match value with
  | CText s => if startswith "[" s && endswith "]" s
               then literal_eval s
               else Ok (VStr s)
  | _ => Raise AttributeError
  end.

(** Lines 166-171: the positional assignment of one column. *)
Definition assign_column (columns : list string) (row : list cell)
    (column : string) : M pyobj unit :=
  obj <~ get ;;
  if hasattr obj column then
    value <~ lift (row_at columns row column) ;;
    if cell_truthy value then
      value' <~ lift (coerce value) ;;
      modify (setattr column value')
    else ret tt
  else ret tt.

(** Lines 176-177: one override record. *)
Definition apply_override (columns : list string) (msg : pyval) : M pyobj unit :=
  column <~ lift (getitem msg "column") ;;
  match in_columns column columns with
  | Some name =>
      value <~ lift (getitem msg "value") ;;
      modify (setattr name value)
  | None => ret tt
  end.

(** Lines 172-177: the overrides of the [message] column. *)
Definition apply_message (columns : list string) (row : list cell)
  : M pyobj unit :=
  if contains columns "message" then
    flag <~ lift (row_at columns row "message") ;;
    if cell_truthy flag then
      text <~ lift (row_at columns row "message") ;;
      messages <~ lift (json_loads_cell text) ;;
      msgs <~ lift (py_iter messages) ;;
      for_each msgs (apply_override columns)
    else ret tt
  else ret tt.

(** The body of the loop over the columns: the override block is indented
    under the [for] and runs once per column. *)
Definition fill_step (columns : list string) (row : list cell)
    (column : string) : M pyobj unit :=
  assign_column columns row column ;;;
  apply_message columns row.

Definition auto_fill_object_from_row (columns : list string) (row : list cell)
  : M pyobj unit :=
  for_each columns (fill_step columns row).

(** Runs the statements [m] on the fresh object [o] and yields the object. *)
Definition build (o : pyobj) (m : M pyobj unit) : outcome pyobj :=
  match m o with
  | (Ok _, o') => Ok o'
  | (Raise e, _) => Raise e
  end.

(** [l.append(x)]; only a list has [append]. *)
Definition append (x : pyval) : M pyval unit :=
  λ l, match l with
       | VList xs => (Ok tt, VList (xs ++ [x]))
       | _ => (Raise AttributeError, l)
       end.

(** Lines 67-70, 83 and 98-101, 112: [items] is [cta.<name>] itself when that
    is true, so what [loop] appends is in the document at once; otherwise it
    is a new list that is stored in the document after the loop. *)
Definition extend_attr (name : string) (loop : M pyval unit) : M pyobj unit :=
  λ cta,
    match getattr cta name with
    | None => (Raise AttributeError, cta)
    | Some cur =>
        if truthy cur then
          let '(r, items) := loop cur in (r, setattr name items cta)
        else
          match loop (VList []) with
          | (Ok _, items) => (Ok tt, setattr name items cta)
          | (Raise e, _) => (Raise e, cta)
          end
    end.

(** *** Metadata *)

Definition parse_metadata_data (db : gmap string view) (table_name : string)
  : M pyobj bool :=
  v <~ lift (select_all db (table_name +:+ "_view")) ;;
  match rows v with
  | row :: _ => auto_fill_object_from_row (columns v) row ;;; ret true
  | [] => ret false
  end.

(** *** Annotations *)

(** Lines 75-79: the columns that are no key of [vars(annotation)] and are not
    reserved become user annotations. *)
Definition user_annotation_step (obj_fields : gmap string pyval)
    (columns : list string) (row : list cell) (column : string)
  : M (list pyval) unit :=
  if negb (bool_decide (is_Some (obj_fields !! column)))
     && negb (contains ["row_number"; "message"] column)
  then
    value <~ lift (row_at columns row column) ;;
    modify (λ user_annotations,
      user_annotations ++ [VObj (new "UserAnnotation" [VStr column; VStr (str value)])])
  else ret tt.

(** Lines 72-80: the annotation of one row. *)
Definition annotation_of_row (columns : list string) (row : list cell)
  : M pyobj unit :=
  auto_fill_object_from_row columns row ;;;
  annotation <~ get ;;
  user_annotations <~
    lift (match for_each columns (user_annotation_step (vars annotation) columns row) []
          with
          | (Ok _, l) => Ok l
          | (Raise e, _) => Raise e
          end) ;;
  modify (setattr "user_annotations" (VList user_annotations)).

Definition parse_annotation_data (db : gmap string view) (table_name : string)
  : M pyobj unit :=
  v <~ lift (select_all db (table_name +:+ "_view")) ;;
  match rows v with
  | [] => ret tt
  | _ =>
      extend_attr "annotations"
        (for_each (rows v) (λ row,
           annotation <~ lift (build (new "Annotation" [VStr ""; VStr ""])
                                 (annotation_of_row (columns v) row)) ;;
           append (VObj annotation)))
  end.

(** *** Labelsets *)

(** Lines 104-110: the labelset of one row. *)
Definition labelset_of_row (columns renamed_columns : list string)
    (row : list cell) : M pyobj unit :=
  auto_fill_object_from_row columns row ;;;
  algorithm <~ lift (row_at renamed_columns row "algorithm_name") ;;
  if cell_truthy algorithm then
    automated_annotation <~
      lift (build (new "AutomatedAnnotation" [VStr ""; VStr ""; VStr ""; VStr ""])
              (auto_fill_object_from_row renamed_columns row)) ;;
    modify (setattr "automated_annotation" (VObj automated_annotation))
  else ret tt.

Definition parse_labelset_data (db : gmap string view) (table_name : string)
  : M pyobj unit :=
  v <~ lift (select_all db (table_name +:+ "_view")) ;;
  match rows v with
  | [] => ret tt
  | _ =>
      extend_attr "labelsets"
        (let renamed_columns := str_remove "automated_annotation_" <$> columns v in
         for_each (rows v) (λ row,
           labelset <~ lift (build (new "Labelset" [VStr ""; VStr ""])
                               (labelset_of_row (columns v) renamed_columns row)) ;;
           append (VObj labelset)))
  end.

(** *** Annotation transfers *)

(** Lines 129-130: for each annotation, whether its accession equals the
    target; every annotation is inspected. *)
Fixpoint accession_matches (target : cell) (annotations : list pyval)
  : outcome (list bool) :=
  match annotations with
  | [] => Ok []
  | a :: annotations' =>
      match val_getattr a "cell_set_accession" with
      | Raise e => Raise e
      | Ok accession =>
          match accession_matches target annotations' with
          | Raise e => Raise e
          | Ok bs => Ok (eq_cell accession target :: bs)
          end
      end
  end.

(** Position of [filtered_annotations[0]] in [cta.annotations]. *)
Fixpoint first_true (bs : list bool) : option nat :=
  match bs with
  | [] => None
  | true :: _ => Some 0%nat
  | false :: bs' => S <$> first_true bs'
  end.

(** Lines 134-137 on the matched annotation [a]. *)
Definition attach_transfer (at_ : pyobj) (a : pyval) : outcome pyval :=
  match a with
  | VObj o =>
      match getattr o "transferred_annotations" with
      | None => Raise AttributeError
      | Some cur =>
          if truthy cur then
            match append (VObj at_) cur with
            | (Ok _, cur') => Ok (VObj (setattr "transferred_annotations" cur' o))
            | (Raise e, _) => Raise e
            end
          else Ok (VObj (setattr "transferred_annotations" (VList [VObj at_]) o))
      end
  | _ => Raise AttributeError
  end.

(** The sequence [seq] with its elements replaced by [items]. *)
Definition with_items (seq : pyval) (items : list pyval) : pyval :=
  match seq with
  | VList _ => VList items
  | VTuple _ => VTuple items
  | _ => seq
  end.

(** Lines 128-137: one row of an annotation transfer view.  The matched
    annotation is an element of [cta.annotations] and is changed in place. *)
Definition transfer_row (columns : list string) (row : list cell)
  : M pyobj unit :=
  if contains columns "target_node_accession" then
    target <~ lift (row_at columns row "target_node_accession") ;;
    if cell_truthy target then
      cta <~ get ;;
      seq <~ lift (val_getattr (VObj cta) "annotations") ;;
      annotations <~ lift (py_iter seq) ;;
      bs <~ lift (accession_matches target annotations) ;;
      match first_true bs with
      | None => ret tt
      | Some i =>
          at_ <~ lift (build (new "AnnotationTransfer"
                                [VStr ""; VStr ""; VStr ""; VStr ""; VStr ""])
                         (auto_fill_object_from_row columns row)) ;;
          a <~ lift (match annotations !! i with
                     | Some a => Ok a
                     | None => Raise IndexError
                     end) ;;
          a' <~ lift (attach_transfer at_ a) ;;
          modify (setattr "annotations" (with_items seq (<[i := a']> annotations)))
      end
    else ret tt
  else ret tt.

Definition parse__annotation_transfer_data (db : gmap string view)
    (table_name : string) : M pyobj unit :=
  v <~ lift (select_all db (table_name +:+ "_view")) ;;
  for_each (rows v) (transfer_row (columns v)).

(** *** Table names *)

Definition table_name_step (table_column_index : nat) (row : list cell)
  : M (list string) unit :=
  name <~ lift (match row !! table_column_index with
                | Some c => Ok (str c)
                | None => Raise IndexError
                end) ;;
  if endswith_any cas_table_postfixes name
  then modify (λ cas_tables, cas_tables ++ [name])
  else ret tt.

Definition get_table_names (db : gmap string view) : outcome (list string) :=
  match select_all db "table_view" with
  | Raise e => Raise e
  | Ok v =>
      match index_of "table" (columns v) with
      | None => Raise ValueError
      | Some table_column_index =>
          match for_each (rows v) (table_name_step table_column_index) [] with
          | (Ok _, cas_tables) => Ok cas_tables
          | (Raise e, _) => Raise e
          end
      end
  end.

(** *** The export *)

(** Lines 23-30: the parser of a table, chosen by its suffix. *)
Definition dispatch (db : gmap string view) (table_name : string)
  : M pyobj unit :=
  if endswith "_metadata" table_name then
    parse_metadata_data db table_name ;;; ret tt
  else if endswith "_annotation" table_name then
    parse_annotation_data db table_name
  else if endswith "_labelset" table_name then
    parse_labelset_data db table_name
  else if endswith "_annotation_transfer" table_name then
    parse__annotation_transfer_data db table_name
  else ret tt.

(** [export_cas_data]: the returned document and what was written and printed.
    The serializer is external; it is recorded as one write of the document. *)
Definition export_cas_data (sqlite_db : gmap string view) (output_file : string)
  : outcome pyobj * list event :=
  let cta := new "CellTypeAnnotation" [VStr ""; VList []] in
  match get_table_names sqlite_db with
  | Raise e => (Raise e, [])
  | Ok cas_tables =>
      match for_each cas_tables (dispatch sqlite_db) cta with
      | (Raise e, _) => (Raise e, [])
      | (Ok _, cta') =>
          (Ok cta',
           [Written output_file cta' true;
            Printed ("CAS json successfully created at: " +:+ output_file)])
      end
  end.

(** *** Notions used to state the properties *)

(** The row has no overrides: no [message] column, or a false value in it. *)
Definition no_message (columns : list string) (row : list cell) : Prop :=
  contains columns "message" = false ∨
  ∃ flag, row_at columns row "message" = Ok flag ∧ cell_truthy flag = false.

(** The columns of the list that the override records of the row's [message]
    name. *)
Definition override_names (columns : list string) (row : list cell)
  : list string :=
  if contains columns "message" then
    match row_at columns row "message" with
    | Ok text =>
        if cell_truthy text then
          match json_loads_cell text with
          | Ok messages =>
              match py_iter messages with
              | Ok msgs =>
                  omap (λ msg, match getitem msg "column" with
                               | Ok column => in_columns column columns
                               | Raise _ => None
                               end) msgs
              | Raise _ => []
              end
          | Raise _ => []
          end
        else []
    | Raise _ => []
    end
  else [].

(** A column that the annotation parser turns into a user annotation: no key
    of [vars(annotation)] and not reserved. *)
Definition user_column (annotation : pyobj) (column : string) : Prop :=
  ¬ is_Some (vars annotation !! column) ∧ column ∉ ["row_number"; "message"].

#[global] Instance user_column_dec annotation column :
  Decision (user_column annotation column).
Proof. unfold user_column. apply _. Defined.

(** The user annotation of a column: the pair of its name and the [str] of
    the row's value for it. *)
Definition is_user_annotation (columns : list string) (row : list cell)
    (column : string) (ua : pyval) : Prop :=
  ∃ value, row_at columns row column = Ok value ∧
    ua = VObj (new "UserAnnotation" [VStr column; VStr (str value)]).

(** The transfers that an annotation already holds: the elements of a true
    [transferred_annotations] list, none when it is false. *)
Definition held_transfers (a : pyobj) (previous : list pyval) : Prop :=
  ∃ cur, getattr a "transferred_annotations" = Some cur ∧
    if truthy cur then cur = VList previous else previous = [].

(** The entries that the document already holds under [name]: the elements
    of a true list, none when the attribute is false ([None], an empty
    list). *)
Definition held_entries (cta : pyobj) (name : string) (existing : list pyval)
  : Prop :=
  ∃ cur, getattr cta name = Some cur ∧
    if truthy cur then cur = VList existing else existing = [].

End tdt_export.

(** ** Reference imports

    Decoders and a class table to run the model on concrete rows.  The
    decoders read the fragment of JSON and of Python literals made of
    [None]/[null], booleans, integers without leading zeros, strings whose
    only escapes are an escaped quote and an escaped backslash, lists, and
    dicts with string keys; outside that fragment they answer with an
    exception, which is not a statement about the library. *)
Module Reference.

Definition dq : ascii := "034"%char.
Definition backslash : ascii := "092"%char.

(** The text [s] with every apostrophe turned into a double quote, to write
    JSON texts as string literals. *)
Fixpoint dquote (s : string) : string :=
  match s with
  | EmptyString => EmptyString
  | String c s' => String (if Ascii.eqb c "'" then dq else c) (dquote s')
  end.

Inductive token :=
| TOpen (c : ascii)
| TClose (c : ascii)
| TComma
| TColon
| TString (s : string)
| TInt (z : Z)
| TWord (w : string).

Inductive mode :=
| Start
| InString (quote : ascii) (acc : string) (escaped : bool)
| InInt (neg : bool) (acc : option Z)
| InWord (acc : string).

Definition digit (c : ascii) : option Z :=
  let n := Z.of_nat (nat_of_ascii c) in
  if (48 <=? n) && (n <=? 57) then Some (n - 48) else None.

Definition is_letter (c : ascii) : bool :=
  let n := Z.of_nat (nat_of_ascii c) in
  ((65 <=? n) && (n <=? 90)) || ((97 <=? n) && (n <=? 122)) || (n =? 95).

Definition is_space (c : ascii) : bool :=
  let n := Z.of_nat (nat_of_ascii c) in
  (n =? 32) || (n =? 9) || (n =? 10) || (n =? 13).

Definition snoc (s : string) (c : ascii) : string := s +:+ String c EmptyString.

(** What a character starts when no token is open. *)
Definition enter (python : bool) (c : ascii) : option (list token * mode) :=
  if is_space c then Some ([], Start)
  else if Ascii.eqb c "[" || Ascii.eqb c "{" then Some ([TOpen c], Start)
  else if Ascii.eqb c "]" || Ascii.eqb c "}" then Some ([TClose c], Start)
  else if Ascii.eqb c "," then Some ([TComma], Start)
  else if Ascii.eqb c ":" then Some ([TColon], Start)
  else if Ascii.eqb c dq || (python && Ascii.eqb c "'")
  then Some ([], InString c EmptyString false)
  else if Ascii.eqb c "-" then Some ([], InInt true None)
  else match digit c with
       | Some d => Some ([], InInt false (Some d))
       | None => if is_letter c then Some ([], InWord (String c EmptyString))
                 else None
       end.

Fixpoint lex (python : bool) (m : mode) (cs : list ascii) : option (list token) :=
  match cs with
  | [] =>
      match m with
      | Start => Some []
      | InString _ _ _ => None
      | InInt neg (Some z) => Some [TInt (if neg then - z else z)]
      | InInt _ None => None
      | InWord w => Some [TWord w]
      end
  | c :: cs' =>
      match m with
      | Start =>
          match enter python c with
          | Some (ts, m') => (ts ++.) <$> lex python m' cs'
          | None => None
          end
      | InString q acc true =>
          if Ascii.eqb c dq || Ascii.eqb c backslash
          then lex python (InString q (snoc acc c) false) cs'
          else None
      | InString q acc false =>
          if Ascii.eqb c backslash then lex python (InString q acc true) cs'
          else if Ascii.eqb c q then (TString acc ::.) <$> lex python Start cs'
          else lex python (InString q (snoc acc c) false) cs'
      | InInt neg acc =>
          match digit c, acc with
          | Some d, None => lex python (InInt neg (Some d)) cs'
          | Some d, Some 0 => None
          | Some d, Some z => lex python (InInt neg (Some (10 * z + d))) cs'
          | None, None => None
          | None, Some z =>
              match enter python c with
              | Some (ts, m') =>
                  ((TInt (if neg then - z else z) :: ts) ++.) <$> lex python m' cs'
              | None => None
              end
          end
      | InWord w =>
          if is_letter c || bool_decide (is_Some (digit c))
          then lex python (InWord (snoc w c)) cs'
          else match enter python c with
               | Some (ts, m') => ((TWord w :: ts) ++.) <$> lex python m' cs'
               | None => None
               end
      end
  end.

(** The syntax tree of a literal; a name parses and is refused when the tree
    is evaluated. *)
Inductive lit :=
| LAtom (v : pyval)
| LName (w : string)
| LList (l : list lit)
| LDict (kvs : list (string * lit)).

Definition python_keywords : list string :=
  ["not"; "and"; "or"; "if"; "else"; "in"; "is"; "for"; "lambda"; "while";
   "def"; "class"; "return"; "import"; "from"; "with"; "as"; "del"; "pass"].

Definition word_lit (python : bool) (w : string) : option lit :=
  if python then
    if String.eqb w "None" then Some (LAtom VNone)
    else if String.eqb w "True" then Some (LAtom (VBool true))
    else if String.eqb w "False" then Some (LAtom (VBool false))
    else if contains python_keywords w then None
    else Some (LName w)
  else
    if String.eqb w "null" then Some (LAtom VNone)
    else if String.eqb w "true" then Some (LAtom (VBool true))
    else if String.eqb w "false" then Some (LAtom (VBool false))
    else None.

Definition closes (c : ascii) (t : token) : bool :=
  match t with
  | TClose c' => Ascii.eqb c c'
  | _ => false
  end.

(** The elements after an opening bracket, up to the closing one.  A closing
    bracket may stand where an element is expected when [may_close]: at the
    start, and in Python after a comma. *)
Fixpoint parse_items (python : bool)
    (value : list token → option (lit * list token))
    (may_close : bool) (fuel : nat) (ts : list token)
  : option (list lit * list token) :=
  match fuel with
  | O => None
  | S n =>
      match ts with
      | [] => None
      | t :: r =>
          if may_close && closes "]" t then Some ([], r)
          else
            match value ts with
            | Some (x, TComma :: r') =>
                match parse_items python value python n r' with
                | Some (xs, r'') => Some (x :: xs, r'')
                | None => None
                end
            | Some (x, t' :: r') => if closes "]" t' then Some ([x], r') else None
            | _ => None
            end
      end
  end.

Fixpoint parse_pairs (python : bool)
    (value : list token → option (lit * list token))
    (may_close : bool) (fuel : nat) (ts : list token)
  : option (list (string * lit) * list token) :=
  match fuel with
  | O => None
  | S n =>
      match ts with
      | TString k :: TColon :: r =>
          match value r with
          | Some (x, TComma :: r') =>
              match parse_pairs python value python n r' with
              | Some (xs, r'') => Some ((k, x) :: xs, r'')
              | None => None
              end
          | Some (x, t' :: r') => if closes "}" t' then Some ([(k, x)], r') else None
          | _ => None
          end
      | t :: r => if may_close && closes "}" t then Some ([], r) else None
      | [] => None
      end
  end.

Fixpoint parse_value (python : bool) (fuel : nat) (ts : list token)
  : option (lit * list token) :=
  match fuel with
  | O => None
  | S n =>
      match ts with
      | TString s :: r => Some (LAtom (VStr s), r)
      | TInt z :: r => Some (LAtom (VInt z), r)
      | TWord w :: r => (λ l, (l, r)) <$> word_lit python w
      | TOpen c :: r =>
          if Ascii.eqb c "["
          then match parse_items python (parse_value python n) true n r with
               | Some (xs, r') => Some (LList xs, r')
               | None => None
               end
          else match parse_pairs python (parse_value python n) true n r with
               | Some (kvs, r') => Some (LDict kvs, r')
               | None => None
               end
      | _ => None
      end
  end.

(** [d[k] = v] on the pairs of a dict: a key keeps its place. *)
Fixpoint dict_put (k : string) (v : pyval) (kvs : list (pyval * pyval))
  : list (pyval * pyval) :=
  match kvs with
  | [] => [(VStr k, v)]
  | (VStr k', v') :: kvs' =>
      if String.eqb k' k then (VStr k', v) :: kvs'
      else (VStr k', v') :: dict_put k v kvs'
  | kv :: kvs' => kv :: dict_put k v kvs'
  end.

Fixpoint eval_lit (l : lit) : outcome pyval :=
  match l with
  | LAtom v => Ok v
  | LName _ => Raise ValueError
  | LList xs =>
      (fix go (xs : list lit) (acc : list pyval) : outcome pyval :=
         match xs with
         | [] => Ok (VList acc)
         | x :: xs' => match eval_lit x with
                       | Ok v => go xs' (acc ++ [v])
                       | Raise e => Raise e
                       end
         end) xs []
  | LDict kvs =>
      (fix go (kvs : list (string * lit)) (acc : list (pyval * pyval))
         : outcome pyval :=
         match kvs with
         | [] => Ok (VDict acc)
         | (k, x) :: kvs' => match eval_lit x with
                             | Ok v => go kvs' (dict_put k v acc)
                             | Raise e => Raise e
                             end
         end) kvs []
  end.

Definition decode (python : bool) (syntax_error : exn) (s : string)
  : outcome pyval :=
  match lex python Start (String.list_ascii_of_string s) with
  | None => Raise syntax_error
  | Some ts =>
      match parse_value python (S (length ts)) ts with
      | Some (l, []) => eval_lit l
      | _ => Raise syntax_error
      end
  end.

Definition ast_literal_eval : string → outcome pyval := decode true SyntaxError.

Definition json_loads_text : string → outcome pyval := decode false JSONDecodeError.

(** Modelled from the spec: the entity classes of the external package
    [ctat.cell_type_annotation] (section 3 of the specification names their
    essential fields).  Each class sets its fields in the instance; the
    optional ones also exist on the class with the default [None]. *)
Definition ctat_fields (cls : string) : list string * list string :=
  if String.eqb cls "CellTypeAnnotation" then
    (["author_name"; "annotations"], ["labelsets"; "title"; "description"])
  else if String.eqb cls "Annotation" then
    (["labelset"; "cell_label"],
     ["cell_set_accession"; "rationale"; "synonyms"; "transferred_annotations";
      "user_annotations"])
  else if String.eqb cls "Labelset" then
    (["name"; "description"], ["rank"; "automated_annotation"])
  else if String.eqb cls "AutomatedAnnotation" then
    (["algorithm_name"; "algorithm_version"; "algorithm_repo_url";
      "reference_location"], [])
  else if String.eqb cls "AnnotationTransfer" then
    (["transferred_cell_label"; "source_taxonomy"; "source_node_accession";
      "algorithm_name"; "comment"], [])
  else if String.eqb cls "UserAnnotation" then
    (["labelset"; "cell_label"], [])
  else ([], []).

Definition ctat_init (cls : string) (args : list pyval) : gmap string pyval :=
  let '(required, optional) := ctat_fields cls in
  list_to_map (zip required args ++ ((λ f, (f, VNone)) <$> optional)).

Definition ctat_attr (cls name : string) : option pyval :=
  if contains (ctat_fields cls).2 name then Some VNone else None.

Definition imports : Imports := {|
  class_attr := ctat_attr;
  class_init := ctat_init;
  literal_eval := ast_literal_eval;
  json_loads := json_loads_text
|}.

End Reference.

(** ** Sample data *)
Module Samples.

Import Reference.

Definition annotation : pyobj := new (H := imports) "Annotation" [VStr ""; VStr ""].

Definition annotation_columns : list string :=
  ["cell_set_accession"; "cell_label"; "custom_field"; "message"].

(** The annotation row of section 8 of the specification. *)
Definition corrected_row : list cell :=
  [CText "CS001"; CText "Neuron"; CText "foo";
   CText (dquote "[{'column':'cell_label','value':'Corrected Neuron'}]")].

(** Two override records for one column. *)
Definition twice_corrected_row : list cell :=
  [CText "CS001"; CText "Neuron"; CText "foo";
   CText (dquote "[{'column':'cell_label','value':'first'},{'column':'cell_label','value':'second'}]")].

(** An override record for a column that is no field of the entity. *)
Definition custom_override_row : list cell :=
  [CText "CS001"; CText "Neuron"; CText "foo";
   CText (dquote "[{'column':'custom_field','value':'bar'}]")].

(** A [message] that is not JSON. *)
Definition undecodable_row : list cell :=
  [CText "CS001"; CText "Neuron"; CText "foo"; CText "not json"].

Definition plain_columns : list string :=
  ["cell_set_accession"; "cell_label"; "synonyms"; "rationale"; "row_number"].

Definition plain_row : list cell :=
  [CText "CS002"; CText "Glia"; CText "[1,2,3]"; CNull; CInt 2].

Definition invalid_literal_row : list cell :=
  [CText "CS002"; CText "Glia"; CText "[not, valid]"; CNull; CInt 2].

Definition labelset_columns : list string :=
  ["name"; "description"; "automated_annotation_algorithm_name";
   "automated_annotation_algorithm_version"].

Definition transfer_columns : list string :=
  ["target_node_accession"; "transferred_cell_label"; "source_taxonomy"].

Definition sample_db : gmap string view :=
  list_to_map
    [("table_view",
      View ["table"; "path"]
        [[CText "table"; CText "table.tsv"];
         [CText "CCN_annotation_transfer"; CText "t.tsv"];
         [CText "CCN_metadata"; CText "m.tsv"];
         [CText "CCN_annotation"; CText "a.tsv"];
         [CText "CCN_labelset"; CText "l.tsv"];
         [CText "CCN_annotation_transfer"; CText "t.tsv"];
         [CText "CCN_annotation_conflict"; CNull]]);
     ("CCN_metadata_view",
      View ["author_name"; "title"; "row_number"; "message"]
        [[CText "Jane Doe"; CText "Atlas"; CInt 1; CNull]]);
     ("CCN_annotation_view",
      View annotation_columns
        [corrected_row;
         [CText "CS002"; CText "Glia"; CNull; CNull];
         [CText "CS002"; CText "Astrocyte"; CText "baz"; CText ""]]);
     ("CCN_labelset_view",
      View labelset_columns
        [[CText "cluster"; CText "Cluster level"; CText ""; CText ""];
         [CText "class"; CNull; CText "SciKit-v2"; CText "2.1"]]);
     ("CCN_annotation_transfer_view",
      View transfer_columns
        [[CText "CS002"; CText "Glial cell"; CText "Atlas 1"];
         [CText "CS404"; CText "Unknown"; CText "Atlas 1"];
         [CNull; CText "Nothing"; CText "Atlas 1"]])].

(** A catalog with one labelset table whose view has no algorithm columns. *)
Definition bare_labelset_db : gmap string view :=
  list_to_map
    [("table_view", View ["table"] [[CText "CCN_labelset"]]);
     ("CCN_labelset_view",
      View ["name"; "description"] [[CText "cluster"; CText "Cluster level"]])].

(** A document with three annotations, two of them with one accession. *)
Definition linked_annotations : list pyval :=
  [VObj (setattr "cell_set_accession" (VStr "CS001") annotation);
   VObj (setattr "cell_set_accession" (VStr "CS002") annotation);
   VObj (setattr "transferred_annotations" (VList [VStr "earlier"])
           (setattr "cell_set_accession" (VStr "CS002") annotation))].

Definition linked_cta : pyobj :=
  setattr "annotations" (VList linked_annotations)
    (new (H := imports) "CellTypeAnnotation" [VStr ""; VList []]).

Definition matching_transfer_row : list cell :=
  [CText "CS002"; CText "Glial cell"; CText "Atlas 1"].

Definition unmatched_transfer_row : list cell :=
  [CText "CS404"; CText "Unknown"; CText "Atlas 1"].

(** A non-zero integer in the column of a field. *)
Definition integer_row : list cell :=
  [CText "CS002"; CInt 7; CNull; CNull; CInt 2].

(** A row with a single cell for five columns. *)
Definition short_row : list cell := [CText "CS002"].

(** An override record without a [value]. *)
Definition valueless_override_row : list cell :=
  [CText "CS001"; CText "Neuron"; CText "foo";
   CText (dquote "[{'column':'cell_set_accession','value':'CS009'},{'column':'cell_label'}]")].

(** A [message] that is a JSON number. *)
Definition number_message_row : list cell :=
  [CText "CS001"; CText "Neuron"; CText "foo"; CText "5"].

Definition fresh_cta : pyobj :=
  new (H := imports) "CellTypeAnnotation" [VStr ""; VList []].

(** A transfer view without a [target_node_accession] column, and an
    annotation view whose second row has a [message] that is not JSON. *)
Definition faulty_db : gmap string view :=
  list_to_map
    [("CCN_annotation_transfer_view",
      View ["transferred_cell_label"; "source_taxonomy"]
        [[CText "Glial cell"; CText "Atlas 1"]]);
     ("CCN_annotation_view",
      View annotation_columns [corrected_row; undecodable_row])].

Definition algorithm_row : list cell :=
  [CText "class"; CNull; CText "SciKit-v2"; CText "2.1"].

(** A transfer view whose second row targets [CS002], after a row for an
    unknown accession and before a row without target. *)
Definition transfer_view : view :=
  View transfer_columns
    [unmatched_transfer_row; matching_transfer_row;
     [CNull; CText "Nothing"; CText "Atlas 1"]].

Definition transfer_db : gmap string view :=
  list_to_map [("CCN_annotation_transfer_view", transfer_view)].



End Samples.

(** * Properties *)

(** ** Statements and loops *)

Section statements.

Context {S X : Type}.

Lemma for_each_cons (x : X) (xs : list X) (body : X → M S unit) (s : S) :
  for_each (x :: xs) body s =
  match body x s with
  | (Ok _, s') => for_each xs body s'
  | (Raise e, s') => (Raise e, s')
  end.
Proof. reflexivity. Qed.

Lemma for_each_app (xs ys : list X) (body : X → M S unit) (s : S) :
  for_each (xs ++ ys) body s =
  match for_each xs body s with
  | (Ok _, s') => for_each ys body s'
  | (Raise e, s') => (Raise e, s')
  end.
Proof.
  revert s. induction xs as [|x xs IH]; intros s; [done|].
  simpl app. rewrite !for_each_cons.
  destruct (body x s) as [[[]|e] s']; [apply IH|done].
Qed.

(** A property kept by every run of the body, raising or not, is kept by the
    loop. *)
Lemma for_each_invariant (P : S → Prop) (xs : list X) (body : X → M S unit) :
  (∀ x s r s', x ∈ xs → P s → body x s = (r, s') → P s') →
  ∀ s r s', P s → for_each xs body s = (r, s') → P s'.
Proof.
  induction xs as [|x xs IH]; intros Hbody s r s' HP Hrun.
  - by inversion Hrun; subst.
  - rewrite for_each_cons in Hrun.
    destruct (body x s) as [[[]|e] s1] eqn:Hx.
    + eapply IH; [| |exact Hrun].
      * intros y t r' t' Hy. apply Hbody. by right.
      * eapply Hbody; [by left|exact HP|exact Hx].
    + inversion Hrun; subst. eapply Hbody; [by left|exact HP|exact Hx].
Qed.

(** Two bodies that agree on the elements of the list run the same loop. *)
Lemma for_each_ext (xs : list X) (body body' : X → M S unit) :
  (∀ x s, x ∈ xs → body x s = body' x s) →
  ∀ s, for_each xs body s = for_each xs body' s.
Proof.
  induction xs as [|x xs IH]; intros Hext s; [done|].
  rewrite !for_each_cons, <- Hext by (by left).
  destruct (body x s) as [[[]|e] s1]; [|done].
  apply IH. intros y t Hy. apply Hext. by right.
Qed.

End statements.

(** ** Strings and lists *)

Lemma index_of_Some (x : string) (l : list string) :
  x ∈ l → ∃ i, index_of x l = Some i ∧ l !! i = Some x.
Proof.
  induction l as [|y l IH]; intros Hin; [by apply elem_of_nil in Hin|].
  simpl. destruct (String.eqb_spec x y) as [->|Hne].
  - by exists 0%nat.
  - apply elem_of_cons in Hin as [?|Hin]; [done|].
    destruct (IH Hin) as (i & -> & Hi). by exists (Datatypes.S i).
Qed.

Lemma index_of_first (x : string) (l : list string) (i : nat) :
  index_of x l = Some i →
  l !! i = Some x ∧ ∀ j y, (j < i)%nat → l !! j = Some y → y ≠ x.
Proof.
  revert i. induction l as [|y l IH]; intros i Hi; [done|].
  simpl in Hi. destruct (String.eqb_spec x y) as [->|Hne].
  - inversion Hi; subst. split; [done|]. intros; lia.
  - destruct (index_of x l) as [k|]; [|done]. inversion Hi; subst.
    destruct (IH k eq_refl) as [Hk Hfirst]. split; [done|].
    intros [|j] z Hj Hz; simpl in Hz.
    + inversion Hz; subst. congruence.
    + eapply Hfirst; [|exact Hz]. lia.
Qed.

Lemma contains_true (l : list string) (x : string) :
  contains l x = true ↔ x ∈ l.
Proof. unfold contains. by rewrite bool_decide_eq_true. Qed.

Lemma contains_false (l : list string) (x : string) :
  contains l x = false ↔ x ∉ l.
Proof. unfold contains. by rewrite bool_decide_eq_false. Qed.

Lemma string_length_app (p q : string) :
  String.length (p +:+ q) = (String.length p + String.length q)%nat.
Proof. induction p as [|a p IH]; simpl; [done|by rewrite IH]. Qed.

Lemma substring_all (s : string) : String.substring 0 (String.length s) s = s.
Proof. induction s as [|a s IH]; simpl; [done|by rewrite IH]. Qed.

Lemma substring_after (p q : string) :
  String.substring (String.length p) (String.length q) (p +:+ q) = q.
Proof. induction p as [|a p IH]; simpl; [apply substring_all|exact IH]. Qed.

Lemma string_split_at (s : string) (n : nat) :
  (n ≤ String.length s)%nat → ∃ p q, s = p +:+ q ∧ String.length p = n.
Proof.
  revert n. induction s as [|a s IH]; intros n Hn.
  - exists EmptyString, EmptyString. simpl in *. split; [done|lia].
  - destruct n as [|n].
    + by exists EmptyString, (String a s).
    + destruct (IH n) as (p & q & -> & Hp); [simpl in Hn; lia|].
      exists (String a p), q. simpl. by rewrite Hp.
Qed.

(** [endswith suf s] holds exactly when [s] is some text followed by [suf]. *)
Lemma endswith_spec (suf s : string) :
  endswith suf s = true ↔ ∃ p, s = p +:+ suf.
Proof.
  unfold endswith. rewrite andb_true_iff, Nat.leb_le, String.eqb_eq. split.
  - intros [Hlen Hsub].
    destruct (string_split_at s (String.length s - String.length suf))
      as (p & q & -> & Hp); [lia|].
    exists p. f_equal. rewrite string_length_app in Hp, Hsub, Hlen.
    assert (String.length q = String.length suf) as Hq by lia.
    replace (String.length p + String.length q - String.length suf)%nat
      with (String.length p) in Hsub by lia.
    rewrite <- Hq in Hsub. by rewrite substring_after in Hsub.
  - intros [p ->]. rewrite string_length_app. split; [lia|].
    replace (String.length p + String.length suf - String.length suf)%nat
      with (String.length p) by lia.
    apply substring_after.
Qed.

Example endswith_suffix : endswith "_annotation" "CCN_annotation" = true.
Proof. reflexivity. Qed.

Example endswith_transfer : endswith "_annotation" "CCN_annotation_transfer" = false.
Proof. reflexivity. Qed.

Example str_remove_prefix :
  str_remove "automated_annotation_" "automated_annotation_algorithm_name"
  = "algorithm_name".
Proof. reflexivity. Qed.

Example str_remove_everywhere : str_remove "ab" "xabyabab" = "xy".
Proof. reflexivity. Qed.

Example str_of_cells : str <$> [CNull; CInt 0; CInt (-12); CText "x"] = ["None"; "0"; "-12"; "x"].
Proof. reflexivity. Qed.

(** ** The table classifier *)

Section classifier.

Context `{Imports}.

Lemma table_names_loop (i : nat) (rows : list (list cell)) (names acc : list string) :
  Forall2 (λ row name, ∃ c, row !! i = Some c ∧ name = str c) rows names →
  for_each rows (table_name_step i) acc =
  (Ok tt, acc ++ filter (λ name, endswith_any cas_table_postfixes name = true) names).
Proof.
  intros Hrows. revert acc.
  induction Hrows as [|row name rows names (c & Hc & ->) _ IH]; intros acc.
  - simpl. unfold ret. by rewrite app_nil_r.
  - rewrite for_each_cons. unfold table_name_step at 1, bind, lift, modify, ret.
    rewrite Hc. rewrite filter_cons.
    destruct (endswith_any cas_table_postfixes (str c)) eqn:Hsuf.
    + rewrite IH. rewrite decide_True by done. by rewrite <- app_assoc.
    + rewrite IH. by rewrite decide_False by (by intros ?).
Qed.

(** [endswith_any] tests the suffixes one by one. *)
Lemma endswith_any_spec (sufs : list string) (s : string) :
  endswith_any sufs s = true ↔ ∃ suf p, suf ∈ sufs ∧ s = p +:+ suf.
Proof.
  unfold endswith_any. rewrite existsb_exists. split.
  - intros (suf & Hin & Hsuf). apply endswith_spec in Hsuf as [p ->].
    exists suf, p. split; [by apply list_elem_of_In|done].
  - intros (suf & p & Hin & ->). exists suf.
    split; [by apply list_elem_of_In|]. apply endswith_spec. by exists p.
Qed.

(** C7. For every catalog with a [table] column whose rows have a value in
    that column, [get_table_names] returns the names (the [str] of the cells
    of that column, in the order of the rows) that end with one of the four
    suffixes, each as often as it occurs. *)
Theorem get_table_names_filters_catalog (db : gmap string view) (v : view)
    (i : nat) (names : list string) :
  db !! "table_view" = Some v →
  index_of "table" (columns v) = Some i →
  Forall2 (λ row name, ∃ c, row !! i = Some c ∧ name = str c) (rows v) names →
  get_table_names db =
  Ok (filter (λ name,
        endswith_any ["_annotation"; "_labelset"; "_metadata"; "_annotation_transfer"]
          name = true) names).
Proof.
  intros Hv Hi Hrows. unfold get_table_names, select_all. rewrite Hv, Hi.
  by rewrite (table_names_loop i _ names []).
Qed.

End classifier.

(** ** The row mapper *)

Section mapper.

Context `{Imports}.

Implicit Types (o : pyobj) (columns : list string) (row : list cell).

Lemma getattr_setattr_eq o name v : getattr (setattr name v o) name = Some v.
Proof. unfold getattr, setattr. simpl. by rewrite lookup_insert_eq. Qed.

Lemma getattr_setattr_ne o name name' v :
  name ≠ name' → getattr (setattr name v o) name' = getattr o name'.
Proof. intros Hne. unfold getattr, setattr. simpl. by rewrite lookup_insert_ne. Qed.

Lemma hasattr_true o name : hasattr o name = true ↔ is_Some (getattr o name).
Proof. unfold hasattr. by rewrite bool_decide_eq_true. Qed.

Lemma hasattr_setattr o name name' v :
  hasattr (setattr name v o) name' = true ↔ name' = name ∨ hasattr o name' = true.
Proof.
  rewrite !hasattr_true. destruct (decide (name = name')) as [->|Hne].
  - rewrite getattr_setattr_eq. split; [by left|by eexists].
  - rewrite getattr_setattr_ne by done. split; [by right|]. by intros [?|?].
Qed.

(** [assign_column] as a case analysis. *)
Lemma assign_column_cases columns row column o :
  assign_column columns row column o =
  if hasattr o column then
    match row_at columns row column with
    | Raise e => (Raise e, o)
    | Ok value =>
        if cell_truthy value then
          match coerce value with
          | Ok v => (Ok tt, setattr column v o)
          | Raise e => (Raise e, o)
          end
        else (Ok tt, o)
    end
  else (Ok tt, o).
Proof.
  unfold assign_column, bind, get, lift, modify, ret.
  destruct (hasattr o column); [|done].
  destruct (row_at columns row column) as [value|e]; [|done].
  destruct (cell_truthy value); [|done].
  by destruct (coerce value).
Qed.

(** [apply_override] as a case analysis. *)
Lemma apply_override_cases columns msg o :
  apply_override columns msg o =
  match getitem msg "column" with
  | Raise e => (Raise e, o)
  | Ok column =>
      match in_columns column columns with
      | None => (Ok tt, o)
      | Some name =>
          match getitem msg "value" with
          | Ok v => (Ok tt, setattr name v o)
          | Raise e => (Raise e, o)
          end
      end
  end.
Proof.
  unfold apply_override, bind, lift, modify, ret.
  destruct (getitem msg "column") as [column|e]; [|done].
  destruct (in_columns column columns); [|done].
  by destruct (getitem msg "value").
Qed.

Lemma in_columns_Some v columns name :
  in_columns v columns = Some name ↔ v = VStr name ∧ name ∈ columns.
Proof.
  unfold in_columns. destruct v; try (split; [done|by intros [? _]]).
  destruct (contains columns s) eqn:Hc.
  - apply contains_true in Hc. split; [by intros [= ->]|by intros [[= ->] _]].
  - apply contains_false in Hc. split; [done|]. by intros [[= ->] ?].
Qed.

(** The positional assignment neither adds nor removes an attribute. *)
Lemma assign_column_hasattr columns row column o r o' name :
  assign_column columns row column o = (r, o') →
  hasattr o' name = hasattr o name.
Proof.
  rewrite assign_column_cases. destruct (hasattr o column) eqn:Hc; [|by intros [= <- <-]].
  destruct (row_at columns row column) as [value|e]; [|by intros [= <- <-]].
  destruct (cell_truthy value); [|by intros [= <- <-]].
  destruct (coerce value) as [v|e]; [|by intros [= <- <-]].
  intros [= <- <-]. apply eq_true_iff_eq. rewrite hasattr_setattr.
  split; [|by right]. by intros [->|?].
Qed.

Lemma assign_column_frame columns row column o r o' name :
  assign_column columns row column o = (r, o') →
  name ≠ column → getattr o' name = getattr o name.
Proof.
  rewrite assign_column_cases. destruct (hasattr o column); [|by intros [= <- <-]].
  destruct (row_at columns row column) as [value|e]; [|by intros [= <- <-]].
  destruct (cell_truthy value); [|by intros [= <- <-]].
  destruct (coerce value) as [v|e]; [|by intros [= <- <-]].
  intros [= <- <-] Hne. by apply getattr_setattr_ne.
Qed.

(** Without overrides the [message] block does nothing. *)
Lemma apply_message_none columns row o :
  no_message columns row → apply_message columns row o = (Ok tt, o).
Proof.
  unfold apply_message, bind, lift, ret. intros [->|(flag & Hflag & Hfalse)]; [done|].
  destruct (contains columns "message"); [|done]. by rewrite Hflag, Hfalse.
Qed.

Lemma fill_step_none columns row column o :
  no_message columns row →
  fill_step columns row column o = assign_column columns row column o.
Proof.
  intros Hno. unfold fill_step, bind.
  destruct (assign_column columns row column o) as [[[]|e] o1]; [|done].
  by apply apply_message_none.
Qed.

(** The loop over the columns [cs], for a row without overrides that is
    mapped without an exception. *)
Lemma positional_loop columns row (cs : list string) o o' :
  no_message columns row →
  for_each cs (fill_step columns row) o = (Ok tt, o') →
  (∀ name, name ∉ cs → getattr o' name = getattr o name) ∧
  (∀ column, column ∈ cs → hasattr o column = true →
     ∃ value, row_at columns row column = Ok value ∧
       if cell_truthy value
       then ∃ v, coerce value = Ok v ∧ getattr o' column = Some v
       else getattr o' column = getattr o column).
Proof.
  intros Hno. revert o. induction cs as [|c cs IH]; intros o Hrun.
  - inversion Hrun; subst. split; [done|]. intros column Hin. by apply elem_of_nil in Hin.
  - rewrite for_each_cons, fill_step_none in Hrun by done.
    destruct (assign_column columns row c o) as [[[]|e] o1] eqn:Hstep; [|done].
    destruct (IH o1 Hrun) as [Hframe Hvals]. split.
    + intros name Hname. apply not_elem_of_cons in Hname as [Hne Hname].
      rewrite Hframe by done. by eapply assign_column_frame.
    + intros column Hin Hattr.
      assert (hasattr o1 column = true) as Hattr1
        by (by erewrite assign_column_hasattr).
      destruct (decide (column ∈ cs)) as [Hcs|Hcs].
      * destruct (Hvals column Hcs Hattr1) as (value & Hvalue & Hres).
        exists value. split; [done|].
        destruct (cell_truthy value) eqn:Htrue; [done|].
        rewrite Hres. destruct (decide (column = c)) as [->|Hne].
        -- rewrite assign_column_cases, Hattr, Hvalue, Htrue in Hstep.
           by inversion Hstep.
        -- by eapply assign_column_frame.
      * apply elem_of_cons in Hin as [->|?]; [|done].
        rewrite (Hframe c Hcs).
        rewrite assign_column_cases, Hattr in Hstep.
        destruct (row_at columns row c) as [value|e]; [|done].
        exists value. split; [done|].
        destruct (cell_truthy value); [|by inversion Hstep].
        destruct (coerce value) as [v|e]; [|done].
        inversion Hstep; subst. exists v. split; [done|].
        apply getattr_setattr_eq.
Qed.

(** C4, as amended. For a row without overrides (no [message] column, or a
    false value in it) that is mapped without an exception, every field of the entity that
    matches a column ends at the row's value for that column, except that a
    false value ([None], [0], the empty string) leaves the field as it was and
    a string that starts with an opening and ends with a closing bracket is
    assigned as the literal it evaluates to. *)
Theorem positional_values_without_message columns row o o' column :
  no_message columns row →
  auto_fill_object_from_row columns row o = (Ok tt, o') →
  column ∈ columns →
  hasattr o column = true →
  ∃ value, row_at columns row column = Ok value ∧
    match value with
    | CNull => getattr o' column = getattr o column
    | CInt z => z = 0 ∧ getattr o' column = getattr o column
    | CText s =>
        if String.eqb s ""
        then getattr o' column = getattr o column
        else if startswith "[" s && endswith "]" s
             then ∃ v, literal_eval s = Ok v ∧ getattr o' column = Some v
             else getattr o' column = Some (VStr s)
    end.
Proof.
  intros Hno Hrun Hin Hattr.
  destruct (positional_loop columns row columns o o' Hno Hrun) as [_ Hvals].
  destruct (Hvals column Hin Hattr) as (value & Hvalue & Hres).
  exists value. split; [done|].
  destruct value as [|z|s]; simpl in Hres.
  - done.
  - destruct (Z.eqb_spec z 0) as [->|Hz]; simpl in Hres; [done|].
    by destruct Hres as (v & ? & _).
  - destruct (String.eqb s ""); simpl in Hres; [done|].
    destruct Hres as (v & Hv & Hget).
    destruct (startswith "[" s && endswith "]" s); [by exists v|].
    by inversion Hv; subst.
Qed.

(** *** Attribute names *)

Lemma fill_step_inv columns row column o r o' :
  fill_step columns row column o = (r, o') →
  ∃ r1 o1, assign_column columns row column o = (r1, o1) ∧
    ((r1 = Ok tt ∧ apply_message columns row o1 = (r, o')) ∨
     (∃ e, r1 = Raise e ∧ r = Raise e ∧ o' = o1)).
Proof.
  unfold fill_step, bind.
  destruct (assign_column columns row column o) as [[[]|e] o1]; intros Hrun.
  - exists (Ok tt), o1. split; [done|]. by left.
  - inversion Hrun; subst. exists (Raise e), o'. split; [done|]. right. by exists e.
Qed.

Lemma apply_override_hasattr columns msg o r o' name :
  apply_override columns msg o = (r, o') →
  (hasattr o name = true → hasattr o' name = true) ∧
  (hasattr o' name = true →
   hasattr o name = true ∨
   ∃ column, getitem msg "column" = Ok column ∧ in_columns column columns = Some name).
Proof.
  rewrite apply_override_cases.
  destruct (getitem msg "column") as [column|e]; [|by intros [= <- <-]; auto].
  destruct (in_columns column columns) as [name'|] eqn:Hname;
    [|by intros [= <- <-]; auto].
  destruct (getitem msg "value") as [v|e]; [|by intros [= <- <-]; auto].
  intros [= <- <-]. rewrite hasattr_setattr. split; [by right|].
  intros [->|?]; [|by left]. right. by exists column.
Qed.

Lemma apply_message_hasattr columns row o r o' name :
  apply_message columns row o = (r, o') →
  (hasattr o name = true → hasattr o' name = true) ∧
  (hasattr o' name = true →
   hasattr o name = true ∨ name ∈ override_names columns row).
Proof.
  unfold apply_message, override_names, bind, lift, ret.
  destruct (contains columns "message"); [|by intros [= <- <-]; auto].
  destruct (row_at columns row "message") as [text|e]; [|by intros [= <- <-]; auto].
  destruct (cell_truthy text); [|by intros [= <- <-]; auto].
  destruct (json_loads_cell text) as [messages|e]; [|by intros [= <- <-]; auto].
  destruct (py_iter messages) as [msgs|e]; [|by intros [= <- <-]; auto].
  apply (for_each_invariant (λ s,
    (hasattr o name = true → hasattr s name = true) ∧
    (hasattr s name = true → hasattr o name = true ∨
       name ∈ omap (λ msg, match getitem msg "column" with
                           | Ok column => in_columns column columns
                           | Raise _ => None
                           end) msgs))); [|by auto].
  intros msg s r1 s1 Hmsg [Hmono Hnew] Hstep.
  destruct (apply_override_hasattr _ _ _ _ _ name Hstep) as [Hmono1 Hnew1].
  split; [by auto|]. intros Hs1.
  destruct (Hnew1 Hs1) as [Hs|(column & Hcolumn & Hname)]; [by auto|].
  right. apply list_elem_of_omap. exists msg. split; [done|]. by rewrite Hcolumn.
Qed.

Lemma fill_step_hasattr columns row column o r o' name :
  fill_step columns row column o = (r, o') →
  (hasattr o name = true → hasattr o' name = true) ∧
  (hasattr o' name = true →
   hasattr o name = true ∨ name ∈ override_names columns row).
Proof.
  intros Hstep.
  destruct (fill_step_inv _ _ _ _ _ _ Hstep)
    as (r1 & o1 & Hassign & [[-> Hmsg]|(e & -> & -> & ->)]).
  - destruct (apply_message_hasattr _ _ _ _ _ name Hmsg) as [Hmono Hnew].
    rewrite (assign_column_hasattr _ _ _ _ _ _ name Hassign) in Hmono, Hnew.
    by split.
  - rewrite (assign_column_hasattr _ _ _ _ _ _ name Hassign). by split; [|left].
Qed.

Lemma override_names_none columns row :
  no_message columns row → override_names columns row = [].
Proof.
  unfold override_names. intros [->|(flag & -> & ->)]; [done|].
  by destruct (contains columns "message").
Qed.

(** C2, as amended. Whatever the outcome of the call, no attribute of the
    entity is removed, and every attribute it has afterwards either was one
    before or is a column of the list named by an override record of the
    row's [message]; for a row without overrides the attribute names are
    unchanged. *)
Theorem attribute_names_after_mapping columns row o r o' :
  auto_fill_object_from_row columns row o = (r, o') →
  (∀ name, hasattr o name = true → hasattr o' name = true) ∧
  (∀ name, hasattr o' name = true →
     hasattr o name = true ∨ name ∈ override_names columns row) ∧
  (no_message columns row → ∀ name, hasattr o' name = hasattr o name).
Proof.
  intros Hrun.
  assert (∀ name,
    (hasattr o name = true → hasattr o' name = true) ∧
    (hasattr o' name = true →
     hasattr o name = true ∨ name ∈ override_names columns row)) as Hinv.
  { intros name. revert Hrun.
    apply (for_each_invariant (λ s,
      (hasattr o name = true → hasattr s name = true) ∧
      (hasattr s name = true →
       hasattr o name = true ∨ name ∈ override_names columns row))); [|by auto].
    intros column s r1 s1 _ [Hmono Hnew] Hstep.
    destruct (fill_step_hasattr _ _ _ _ _ _ name Hstep) as [Hmono1 Hnew1].
    split; [by auto|]. intros Hs1. destruct (Hnew1 Hs1); by auto. }
  split; [intros name; apply Hinv|]. split; [intros name; apply Hinv|].
  intros Hno name. apply eq_true_iff_eq. split; [|apply Hinv].
  intros Hname. destruct (proj2 (Hinv name) Hname) as [?|Hin]; [done|].
  rewrite override_names_none in Hin by done. by apply elem_of_nil in Hin.
Qed.

(** *** Overrides *)

(** A mapping that returns ends with the [message] block of its last column. *)
Lemma mapping_ends_with_message columns row (c : string) (cs : list string) o o' :
  for_each (c :: cs) (fill_step columns row) o = (Ok tt, o') →
  ∃ o1, apply_message columns row o1 = (Ok tt, o').
Proof.
  revert c o. induction cs as [|c' cs IH]; intros c o Hrun.
  - rewrite for_each_cons in Hrun.
    destruct (fill_step columns row c o) as [[[]|e] o1] eqn:Hstep; [|done].
    inversion Hrun; subst.
    destruct (fill_step_inv _ _ _ _ _ _ Hstep)
      as (r1 & o1 & _ & [[_ Hmsg]|(e & _ & ? & _)]); [|done].
    by exists o1.
  - rewrite for_each_cons in Hrun.
    destruct (fill_step columns row c o) as [[[]|e] o1]; [|done].
    by apply (IH c' o1).
Qed.

(** Among the override records applied in sequence, the last one that names a
    column decides its field. *)
Lemma overrides_last columns (pre post : list pyval) msg name v o o' :
  for_each (pre ++ msg :: post) (apply_override columns) o = (Ok tt, o') →
  getitem msg "column" = Ok (VStr name) →
  name ∈ columns →
  getitem msg "value" = Ok v →
  Forall (λ m, getitem m "column" ≠ Ok (VStr name)) post →
  getattr o' name = Some v.
Proof.
  intros Hrun Hcolumn Hname Hvalue Hpost.
  rewrite for_each_app in Hrun.
  destruct (for_each pre (apply_override columns) o) as [[[]|e] o1]; [|done].
  rewrite for_each_cons, apply_override_cases, Hcolumn in Hrun.
  rewrite (proj2 (in_columns_Some (VStr name) columns name)), Hvalue in Hrun by done.
  revert Hrun.
  apply (for_each_invariant (λ s, getattr s name = Some v));
    [|apply getattr_setattr_eq].
  intros m s r1 s1 Hm Hs. rewrite apply_override_cases.
  rewrite Forall_forall in Hpost. specialize (Hpost m Hm).
  destruct (getitem m "column") as [column|e]; [|by intros [= <- <-]].
  destruct (in_columns column columns) as [name'|] eqn:Hname';
    [|by intros [= <- <-]].
  destruct (getitem m "value") as [v'|e]; [|by intros [= <- <-]].
  intros [= <- <-]. apply in_columns_Some in Hname' as [-> _].
  rewrite getattr_setattr_ne; [done|]. by intros ->.
Qed.

(** C1, as amended. When the row's [message] is a non-empty string that
    decodes to a list of override records and the row is mapped without an
    exception, the field named by an override record whose column is in the
    columns list ends at the value of the last record that names that column,
    whatever the row's own value for the column. *)
Theorem last_override_wins columns row o o' (s : string)
    (pre post : list pyval) (msg : pyval) (name : string) (v : pyval) :
  "message" ∈ columns →
  row_at columns row "message" = Ok (CText s) →
  s ≠ "" →
  json_loads s = Ok (VList (pre ++ msg :: post)) →
  getitem msg "column" = Ok (VStr name) →
  name ∈ columns →
  getitem msg "value" = Ok v →
  Forall (λ m, getitem m "column" ≠ Ok (VStr name)) post →
  auto_fill_object_from_row columns row o = (Ok tt, o') →
  getattr o' name = Some v.
Proof.
  intros Hmessage Hrow Hs Hjson Hcolumn Hname Hvalue Hpost Hrun.
  unfold auto_fill_object_from_row in Hrun.
  destruct columns as [|c cs]; [by apply elem_of_nil in Hmessage|].
  destruct (mapping_ends_with_message _ _ _ _ _ _ Hrun) as [o1 Hmsg].
  unfold apply_message, bind, lift in Hmsg.
  rewrite (proj2 (contains_true _ _) Hmessage), Hrow in Hmsg. simpl in Hmsg.
  destruct (String.eqb_spec s ""); [done|]. simpl in Hmsg. rewrite Hjson in Hmsg.
  simpl in Hmsg. by eapply overrides_last.
Qed.

(** C8. When the [message] cell is true and does not decode, the call raises,
    and the entity is left exactly as the positional assignment of the first
    column left it: no override has been applied. *)
Theorem undecodable_message_raises columns row o (text : cell) (e : exn) :
  "message" ∈ columns →
  row_at columns row "message" = Ok text →
  cell_truthy text = true →
  json_loads_cell text = Raise e →
  ∃ column rest, columns = column :: rest ∧
    auto_fill_object_from_row columns row o =
    (Raise (match (assign_column columns row column o).1 with
            | Raise e0 => e0
            | Ok _ => e
            end),
     (assign_column columns row column o).2).
Proof.
  intros Hmessage Hrow Htrue Hjson.
  destruct columns as [|column rest] eqn:Hcolumns; [by apply elem_of_nil in Hmessage|].
  exists column, rest. split; [done|]. rewrite <- Hcolumns in *.
  unfold auto_fill_object_from_row. rewrite Hcolumns at 1.
  rewrite for_each_cons. unfold fill_step at 1, bind at 1.
  destruct (assign_column columns row column o) as [[[]|e0] o1]; [|done].
  unfold apply_message, bind, lift.
  by rewrite (proj2 (contains_true _ _) Hmessage), Hrow, Htrue, Hjson.
Qed.

(** *** Bracketed strings *)

Lemma bracketed_truthy (s : string) :
  startswith "[" s = true → cell_truthy (CText s) = true.
Proof. by destruct s. Qed.

Lemma bracketed_loop_raises columns row column (s : string) (e : exn)
    (cs : list string) o :
  row_at columns row column = Ok (CText s) →
  startswith "[" s = true →
  endswith "]" s = true →
  literal_eval s = Raise e →
  column ∈ cs →
  hasattr o column = true →
  ∃ e' o', for_each cs (fill_step columns row) o = (Raise e', o').
Proof.
  intros Hrow Hopen Hclose Hliteral. revert o.
  induction cs as [|c cs IH]; intros o Hin Hattr; [by apply elem_of_nil in Hin|].
  rewrite for_each_cons.
  destruct (fill_step columns row c o) as [[[]|e'] o1] eqn:Hstep; [|by eauto].
  destruct (decide (c = column)) as [->|Hne].
  - destruct (fill_step_inv _ _ _ _ _ _ Hstep)
      as (r1 & o2 & Hassign & [[-> _]|(e' & _ & ? & _)]); [|done].
    rewrite assign_column_cases, Hattr, Hrow, bracketed_truthy in Hassign by done.
    unfold coerce in Hassign. by rewrite Hopen, Hclose, Hliteral in Hassign.
  - apply IH.
    + by apply elem_of_cons in Hin as [?|?].
    + by apply (fill_step_hasattr _ _ _ _ _ _ column Hstep).
Qed.

Lemma bracketed_field_kept columns row column (s : string) (e : exn)
    (cs : list string) o r o' :
  row_at columns row column = Ok (CText s) →
  startswith "[" s = true →
  endswith "]" s = true →
  literal_eval s = Raise e →
  no_message columns row →
  hasattr o column = true →
  for_each cs (fill_step columns row) o = (r, o') →
  getattr o' column = getattr o column.
Proof.
  intros Hrow Hopen Hclose Hliteral Hno Hattr Hrun.
  cut (hasattr o' column = true ∧ getattr o' column = getattr o column);
    [by intros [_ ?]|].
  revert Hrun.
  apply (for_each_invariant (λ s,
    hasattr s column = true ∧ getattr s column = getattr o column)); [|done].
  intros c t r1 t1 _ [Ht Hget]. rewrite fill_step_none by done. intros Hstep.
  split; [by rewrite (assign_column_hasattr _ _ _ _ _ _ column Hstep)|].
  rewrite <- Hget. destruct (decide (column = c)) as [<-|Hne].
  - rewrite assign_column_cases, Ht, Hrow, bracketed_truthy in Hstep by done.
    unfold coerce in Hstep. rewrite Hopen, Hclose, Hliteral in Hstep.
    by inversion Hstep.
  - by eapply assign_column_frame.
Qed.

(** C10. When a column that is a field of the entity holds a string that
    starts with an opening and ends with a closing bracket and is not a valid
    literal, the call raises; the string is not assigned as it stands: for a
    row without overrides the field keeps the value it had. *)
Theorem invalid_bracketed_literal_raises columns row o column (s : string)
    (e : exn) :
  column ∈ columns →
  hasattr o column = true →
  row_at columns row column = Ok (CText s) →
  startswith "[" s = true →
  endswith "]" s = true →
  literal_eval s = Raise e →
  ∃ e' o', auto_fill_object_from_row columns row o = (Raise e', o') ∧
    (no_message columns row → getattr o' column = getattr o column).
Proof.
  intros Hin Hattr Hrow Hopen Hclose Hliteral.
  destruct (bracketed_loop_raises columns row column s e columns o)
    as (e' & o' & Hrun); try done.
  exists e', o'. split; [done|]. intros Hno.
  by eapply (bracketed_field_kept columns row column s e columns).
Qed.

End mapper.

(** ** The annotation parser *)

Section annotations.

Context `{Imports}.

Implicit Types (o : pyobj) (columns : list string) (row : list cell).

Lemma user_annotation_step_cases (fields : gmap string pyval) columns row column
    (acc : list pyval) :
  user_annotation_step fields columns row column acc =
  if decide (¬ is_Some (fields !! column) ∧ column ∉ ["row_number"; "message"])
  then match row_at columns row column with
       | Ok value =>
           (Ok tt, acc ++ [VObj (new "UserAnnotation" [VStr column; VStr (str value)])])
       | Raise e => (Raise e, acc)
       end
  else (Ok tt, acc).
Proof.
  unfold user_annotation_step, bind, lift, modify, ret, contains.
  destruct (decide (¬ is_Some (fields !! column) ∧ column ∉ ["row_number"; "message"]))
    as [[Hfield Hreserved]|Hno].
  - rewrite bool_decide_eq_false_2, bool_decide_eq_false_2 by done. simpl.
    by destruct (row_at columns row column).
  - destruct (bool_decide (is_Some (fields !! column))) eqn:Hfield; [done|].
    destruct (bool_decide (column ∈ ["row_number"; "message"])) eqn:Hreserved; [done|].
    apply bool_decide_eq_false in Hfield, Hreserved. by destruct Hno.
Qed.

(** The loop of lines 77-79 appends, in the order of the columns, one user
    annotation for each column that passes the test. *)
Lemma user_annotations_loop o columns row (cs : list string) (acc l : list pyval) :
  for_each cs (user_annotation_step (vars o) columns row) acc = (Ok tt, l) →
  ∃ uas, l = acc ++ uas ∧
    Forall2 (is_user_annotation columns row) (filter (user_column o) cs) uas.
Proof.
  revert acc. induction cs as [|c cs IH]; intros acc Hrun.
  - inversion Hrun; subst. exists []. by rewrite app_nil_r.
  - rewrite for_each_cons, user_annotation_step_cases in Hrun.
    rewrite filter_cons. unfold user_column at 1.
    destruct (decide (¬ is_Some (vars o !! c) ∧ c ∉ ["row_number"; "message"])).
    + destruct (row_at columns row c) as [value|e] eqn:Hvalue; [|done].
      destruct (IH _ Hrun) as (uas & -> & Huas).
      exists (VObj (new "UserAnnotation" [VStr c; VStr (str value)]) :: uas).
      split; [by rewrite <- app_assoc|].
      constructor; [by exists value|done].
    + by apply IH.
Qed.

Lemma annotation_of_row_cases columns row o :
  annotation_of_row columns row o =
  match auto_fill_object_from_row columns row o with
  | (Raise e, o1) => (Raise e, o1)
  | (Ok _, mapped) =>
      match for_each columns (user_annotation_step (vars mapped) columns row) [] with
      | (Ok _, l) => (Ok tt, setattr "user_annotations" (VList l) mapped)
      | (Raise e, _) => (Raise e, mapped)
      end
  end.
Proof.
  unfold annotation_of_row, bind, get, lift, modify.
  destruct (auto_fill_object_from_row columns row o) as [[[]|e] mapped]; [|done].
  by destruct (for_each columns _ []) as [[[]|e] l].
Qed.

(** C5. For a row of distinct columns whose annotation is built without an
    exception, the annotation is the mapped entity with [user_annotations]
    set to a list that holds, in the order of the columns, exactly one pair
    (column name, [str] of the row's value) for each column that is no field
    of the mapped entity and is neither [row_number] nor [message], and
    nothing for any other column. *)
Theorem user_annotations_of_row columns row o (a : pyobj) :
  NoDup columns →
  annotation_of_row columns row o = (Ok tt, a) →
  ∃ (mapped : pyobj) (user_columns : list string) (uas : list pyval),
    auto_fill_object_from_row columns row o = (Ok tt, mapped) ∧
    a = setattr "user_annotations" (VList uas) mapped ∧
    NoDup user_columns ∧
    (∀ column, column ∈ user_columns ↔ column ∈ columns ∧ user_column mapped column) ∧
    Forall2 (is_user_annotation columns row) user_columns uas.
Proof.
  intros Hnodup. rewrite annotation_of_row_cases.
  destruct (auto_fill_object_from_row columns row o) as [[[]|e] mapped]; [|done].
  destruct (for_each columns _ []) as [[[]|e] l] eqn:Hloop; [|done].
  intros [= <-].
  destruct (user_annotations_loop _ _ _ _ _ _ Hloop) as (uas & -> & Huas).
  exists mapped, (filter (user_column mapped) columns), uas.
  split; [done|]. split; [done|]. split; [by apply NoDup_filter|].
  split; [|done]. intros column. rewrite list_elem_of_filter. tauto.
Qed.

(** The rows of a view are turned into objects one by one and appended. *)
Lemma collect_loop (object_of_row : list cell → outcome pyobj)
    (rows : list (list cell)) (acc : list pyval) (l : pyval) :
  for_each rows (λ row, x <~ lift (object_of_row row) ;; append (VObj x)) (VList acc)
    = (Ok tt, l) →
  ∃ objects, l = VList (acc ++ (VObj <$> objects)) ∧
    Forall2 (λ row x, object_of_row row = Ok x) rows objects.
Proof.
  revert acc. induction rows as [|row rows IH]; intros acc Hrun.
  - inversion Hrun; subst. exists []. by rewrite app_nil_r.
  - rewrite for_each_cons in Hrun. unfold bind at 1, lift at 1 in Hrun.
    destruct (object_of_row row) as [x|e] eqn:Hrow; [|done]. simpl in Hrun.
    destruct (IH _ Hrun) as (objects & -> & Hobjects).
    exists (x :: objects). split; [by rewrite <- app_assoc|]. by constructor.
Qed.

(** The annotation parser on a document whose annotations are an empty list:
    when it returns, the document holds one annotation per row, in order. *)
Lemma parse_annotation_data_rows (db : gmap string view) (table_name : string)
    (v : view) (cta cta' : pyobj) :
  db !! (table_name +:+ "_view") = Some v →
  getattr cta "annotations" = Some (VList []) →
  parse_annotation_data db table_name cta = (Ok tt, cta') →
  rows v = [] ∧ cta' = cta ∨
  ∃ annotations,
    cta' = setattr "annotations" (VList (VObj <$> annotations)) cta ∧
    Forall2 (λ row a, build (new "Annotation" [VStr ""; VStr ""])
                        (annotation_of_row (columns v) row) = Ok a)
      (rows v) annotations.
Proof.
  intros Hv Hcur. unfold parse_annotation_data, bind at 1, lift at 1, select_all.
  rewrite Hv. destruct (rows v) as [|row rows] eqn:Hrows; [intros [= <-]; by left|].
  unfold extend_attr. rewrite Hcur. simpl truthy. cbv iota.
  destruct (for_each _ _ (VList [])) as [[[]|e] items] eqn:Hloop; [|done].
  intros [= <-]. right.
  destruct (collect_loop _ _ _ _ Hloop) as (annotations & -> & Hall).
  by exists annotations.
Qed.

End annotations.

(** ** The annotation-transfer parser *)

Section transfers.

Context `{Imports}.

Implicit Types (o cta : pyobj) (columns : list string) (row : list cell).

Lemma accession_matches_Forall2 (target : cell) (annotations accessions : list pyval) :
  Forall2 (λ a accession, val_getattr a "cell_set_accession" = Ok accession)
    annotations accessions →
  accession_matches target annotations =
  Ok ((λ accession, eq_cell accession target) <$> accessions).
Proof.
  induction 1 as [|a accession annotations accessions Ha _ IH]; [done|].
  simpl. by rewrite Ha, IH.
Qed.

Lemma first_true_None (bs : list bool) :
  Forall (λ b, b = false) bs → first_true bs = None.
Proof. induction 1 as [|b bs -> _ IH]; simpl; [done|by rewrite IH]. Qed.

Lemma first_true_Some (bs : list bool) (i : nat) :
  bs !! i = Some true →
  (∀ j b, (j < i)%nat → bs !! j = Some b → b = false) →
  first_true bs = Some i.
Proof.
  revert i. induction bs as [|b bs IH]; intros i Hi Hbefore; [done|].
  destruct i as [|i].
  - by inversion Hi; subst.
  - rewrite (Hbefore 0%nat b) by (done || lia). simpl.
    rewrite (IH i); [done|done|].
    intros j b' Hj Hb'. apply (Hbefore (Datatypes.S j)); [lia|done].
Qed.

Lemma attach_transfer_Ok (at_ : pyobj) (a a' : pyval) :
  attach_transfer at_ a = Ok a' →
  ∃ o previous, a = VObj o ∧ held_transfers o previous ∧
    a' = VObj (setattr "transferred_annotations" (VList (previous ++ [VObj at_])) o).
Proof.
  destruct a as [| | | | | | |o]; try done. simpl.
  destruct (getattr o "transferred_annotations") as [cur|] eqn:Hcur; [|done].
  destruct (truthy cur) eqn:Htrue.
  - destruct cur as [| | | |xs| | |]; try done. simpl.
    intros [= <-]. exists o, xs. split; [done|]. split; [|done].
    exists (VList xs). by rewrite Htrue.
  - intros [= <-]. exists o, []. split; [done|]. split; [|done].
    exists cur. by rewrite Htrue.
Qed.

(** The body of the loop over the rows of a transfer view. For a row whose
    [target_node_accession] is present and true, on a
    document whose annotations are a list of entries that each have a
    [cell_set_accession]: when no accession equals the target the row changes
    nothing and raises nothing; when some do and the row is processed without
    an exception, the transfer built from the row is appended once to the
    transfers held by the first such annotation (a list of that one transfer
    when it held none) and nothing else in the document changes. *)
Theorem transfer_row_links_first_match columns row cta (target : cell)
    (annotations accessions : list pyval) :
  "target_node_accession" ∈ columns →
  row_at columns row "target_node_accession" = Ok target →
  cell_truthy target = true →
  getattr cta "annotations" = Some (VList annotations) →
  Forall2 (λ a accession, val_getattr a "cell_set_accession" = Ok accession)
    annotations accessions →
  (Forall (λ accession, eq_cell accession target = false) accessions →
   transfer_row columns row cta = (Ok tt, cta)) ∧
  (∀ (i : nat) (accession : pyval) (cta' : pyobj),
     accessions !! i = Some accession →
     eq_cell accession target = true →
     (∀ j accession', (j < i)%nat → accessions !! j = Some accession' →
        eq_cell accession' target = false) →
     transfer_row columns row cta = (Ok tt, cta') →
     ∃ (a at_ : pyobj) (previous : list pyval),
       annotations !! i = Some (VObj a) ∧
       held_transfers a previous ∧
       build (new "AnnotationTransfer" [VStr ""; VStr ""; VStr ""; VStr ""; VStr ""])
         (auto_fill_object_from_row columns row) = Ok at_ ∧
       cta' = setattr "annotations"
                (VList (<[i := VObj (setattr "transferred_annotations"
                                       (VList (previous ++ [VObj at_])) a)]>
                          annotations)) cta).
Proof.
  intros Hin Hrow Htrue Hcur Hacc.
  assert (∀ s, transfer_row columns row s =
    (cta0 <~ get ;;
     seq <~ lift (val_getattr (VObj cta0) "annotations") ;;
     items <~ lift (py_iter seq) ;;
     bs <~ lift (accession_matches target items) ;;
     match first_true bs with
     | None => ret tt
     | Some i =>
         at_ <~ lift (build (new "AnnotationTransfer"
                               [VStr ""; VStr ""; VStr ""; VStr ""; VStr ""])
                        (auto_fill_object_from_row columns row)) ;;
         a <~ lift (match items !! i with
                    | Some a => Ok a
                    | None => Raise IndexError
                    end) ;;
         a' <~ lift (attach_transfer at_ a) ;;
         modify (setattr "annotations" (with_items seq (<[i := a']> items)))
     end) s) as Hunfold.
  { intros s. unfold transfer_row.
    rewrite (proj2 (contains_true _ _) Hin). unfold bind at 1, lift at 1.
    by rewrite Hrow, Htrue. }
  rewrite Hunfold. unfold bind, get, lift, val_getattr. rewrite Hcur. simpl py_iter.
  cbv iota. rewrite (accession_matches_Forall2 target _ _ Hacc). split.
  - intros Hnone. rewrite first_true_None; [done|].
    apply Forall_fmap. by eapply Forall_impl.
  - intros i accession cta' Hi Hmatch Hfirst.
    rewrite (first_true_Some _ i).
    + destruct (build _ _) as [at_|e]; [|done].
      destruct (annotations !! i) as [a|] eqn:Ha; [|done].
      destruct (attach_transfer at_ a) as [a'|e] eqn:Hattach; [|done].
      unfold modify. intros [= <-].
      destruct (attach_transfer_Ok _ _ _ Hattach) as (o & previous & -> & Hheld & ->).
      by exists o, at_, previous.
    + by rewrite list_lookup_fmap, Hi; simpl; rewrite Hmatch.
    + intros j b Hj. rewrite list_lookup_fmap.
      destruct (accessions !! j) as [accession'|] eqn:Hj'; [|done].
      intros [= <-]. by eapply Hfirst.
Qed.

End transfers.

(** ** The labelset parser *)

Section labelsets.

Context `{Imports}.

Implicit Types (o cta : pyobj) (columns : list string) (row : list cell).

Lemma index_of_None (x : string) (l : list string) :
  x ∉ l → index_of x l = None.
Proof.
  induction l as [|y l IH]; [done|]. intros Hin.
  apply not_elem_of_cons in Hin as [Hne Hin]. simpl.
  destruct (String.eqb_spec x y); [done|]. by rewrite IH.
Qed.

Lemma labelset_of_row_cases columns (renamed_columns : list string) row o :
  labelset_of_row columns renamed_columns row o =
  match auto_fill_object_from_row columns row o with
  | (Raise e, o1) => (Raise e, o1)
  | (Ok _, mapped) =>
      match row_at renamed_columns row "algorithm_name" with
      | Raise e => (Raise e, mapped)
      | Ok algorithm =>
          if cell_truthy algorithm then
            match build (new "AutomatedAnnotation" [VStr ""; VStr ""; VStr ""; VStr ""])
                    (auto_fill_object_from_row renamed_columns row) with
            | Ok automated_annotation =>
                (Ok tt, setattr "automated_annotation" (VObj automated_annotation) mapped)
            | Raise e => (Raise e, mapped)
            end
          else (Ok tt, mapped)
      end
  end.
Proof.
  unfold labelset_of_row, bind, lift, modify, ret.
  destruct (auto_fill_object_from_row columns row o) as [[[]|e] mapped]; [|done].
  destruct (row_at renamed_columns row "algorithm_name") as [algorithm|e]; [|done].
  destruct (cell_truthy algorithm); [|done].
  by destruct (build _ _).
Qed.

(** A false [algorithm_name]: the labelset is the mapped entity, nothing is
    attached and nothing more can raise. *)
Lemma labelset_without_algorithm columns (renamed_columns : list string) row o
    (algorithm : cell) :
  row_at renamed_columns row "algorithm_name" = Ok algorithm →
  cell_truthy algorithm = false →
  labelset_of_row columns renamed_columns row o =
  auto_fill_object_from_row columns row o.
Proof.
  intros Hrow Hfalse. rewrite labelset_of_row_cases.
  destruct (auto_fill_object_from_row columns row o) as [[[]|e] mapped]; [|done].
  by rewrite Hrow, Hfalse.
Qed.

(** A true [algorithm_name]: an automated annotation filled from the renamed
    columns of the same row is attached. *)
Lemma labelset_with_algorithm columns (renamed_columns : list string) row o
    (algorithm : cell) (labelset : pyobj) :
  row_at renamed_columns row "algorithm_name" = Ok algorithm →
  cell_truthy algorithm = true →
  labelset_of_row columns renamed_columns row o = (Ok tt, labelset) →
  ∃ mapped automated_annotation,
    auto_fill_object_from_row columns row o = (Ok tt, mapped) ∧
    build (new "AutomatedAnnotation" [VStr ""; VStr ""; VStr ""; VStr ""])
      (auto_fill_object_from_row renamed_columns row) = Ok automated_annotation ∧
    labelset = setattr "automated_annotation" (VObj automated_annotation) mapped.
Proof.
  intros Hrow Htrue. rewrite labelset_of_row_cases.
  destruct (auto_fill_object_from_row columns row o) as [[[]|e] mapped]; [|done].
  rewrite Hrow, Htrue. destruct (build _ _) as [automated_annotation|e]; [|done].
  intros [= <-]. by exists mapped, automated_annotation.
Qed.

(** An absent [algorithm_name]: the row raises. *)
Lemma labelset_absent_algorithm columns (renamed_columns : list string) row o :
  "algorithm_name" ∉ renamed_columns →
  ∃ e o', labelset_of_row columns renamed_columns row o = (Raise e, o').
Proof.
  intros Habsent. rewrite labelset_of_row_cases.
  destruct (auto_fill_object_from_row columns row o) as [[[]|e] mapped]; [|by eauto].
  unfold row_at. rewrite index_of_None by done. by eauto.
Qed.

(** C3, where the code departs from it. When no column of a labelset view is
    renamed to [algorithm_name] and the view has a row, [parse_labelset_data]
    raises instead of building labelsets without automated annotations. *)
Theorem labelset_without_algorithm_column_raises (db : gmap string view)
    (table_name : string) (v : view) cta :
  db !! (table_name +:+ "_view") = Some v →
  rows v ≠ [] →
  "algorithm_name" ∉ (str_remove "automated_annotation_" <$> columns v) →
  ∃ e cta', parse_labelset_data db table_name cta = (Raise e, cta').
Proof.
  intros Hv Hrows Habsent.
  unfold parse_labelset_data, bind at 1, lift at 1, select_all. rewrite Hv.
  destruct (rows v) as [|row rest]; [done|].
  unfold extend_attr. destruct (getattr cta "labelsets") as [cur|]; [|by eauto].
  assert (∀ items, ∃ e items',
    for_each (row :: rest) (λ row0,
      labelset <~ lift (build (new "Labelset" [VStr ""; VStr ""])
                          (labelset_of_row (columns v)
                             (str_remove "automated_annotation_" <$> columns v) row0)) ;;
      append (VObj labelset)) items = (Raise e, items')) as Hloop.
  { intros items. rewrite for_each_cons. unfold bind at 1, lift at 1, build.
    destruct (labelset_absent_algorithm (columns v) _ row
                (new "Labelset" [VStr ""; VStr ""]) Habsent) as (e & o' & ->).
    by eauto. }
  destruct (truthy cur).
  - destruct (Hloop cur) as (e & items' & ->). by eauto.
  - destruct (Hloop (VList [])) as (e & items' & ->). by eauto.
Qed.

End labelsets.

(** * The properties on the sample data *)

Module Examples.

Import Reference Samples.

#[local] Existing Instance imports.

(** The catalog of the sample database: five of its seven names are kept,
    the repeated one twice. *)
Lemma get_table_names_filters_catalog_witness :
  get_table_names sample_db =
  Ok ["CCN_annotation_transfer"; "CCN_metadata"; "CCN_annotation"; "CCN_labelset";
      "CCN_annotation_transfer"].
Proof.
  etrans.
  - eapply get_table_names_filters_catalog.
    + reflexivity.
    + reflexivity.
    + simpl. repeat (constructor; [eexists; split; reflexivity|]). constructor.
  - vm_compute. reflexivity.
Defined.

(** Section 8: the string [[1,2,3]] is assigned as the list of 1, 2 and 3. *)
Lemma positional_values_without_message_witness :
  ∃ value, row_at plain_columns plain_row "synonyms" = Ok value ∧
    match value with
    | CNull =>
        getattr (auto_fill_object_from_row plain_columns plain_row annotation).2
          "synonyms" = getattr annotation "synonyms"
    | CInt z =>
        z = 0 ∧
        getattr (auto_fill_object_from_row plain_columns plain_row annotation).2
          "synonyms" = getattr annotation "synonyms"
    | CText s =>
        if String.eqb s ""
        then getattr (auto_fill_object_from_row plain_columns plain_row annotation).2
               "synonyms" = getattr annotation "synonyms"
        else if startswith "[" s && endswith "]" s
             then ∃ v, literal_eval s = Ok v ∧
                    getattr (auto_fill_object_from_row plain_columns plain_row
                               annotation).2 "synonyms" = Some v
             else getattr (auto_fill_object_from_row plain_columns plain_row
                             annotation).2 "synonyms" = Some (VStr s)
    end.
Proof.
  apply (positional_values_without_message plain_columns plain_row annotation).
  - left. reflexivity.
  - vm_compute. reflexivity.
  - apply contains_true. reflexivity.
  - reflexivity.
Defined.

Example synonyms_parsed :
  getattr (auto_fill_object_from_row plain_columns plain_row annotation).2 "synonyms"
  = Some (VList [VInt 1; VInt 2; VInt 3]).
Proof. vm_compute. reflexivity. Qed.

(** Section 8: the override of [cell_label] replaces the row's own label. *)
Lemma last_override_wins_witness :
  getattr (auto_fill_object_from_row annotation_columns corrected_row annotation).2
    "cell_label" = Some (VStr "Corrected Neuron").
Proof.
  apply (last_override_wins annotation_columns corrected_row annotation _
           (dquote "[{'column':'cell_label','value':'Corrected Neuron'}]")
           []
           []
           (VDict [(VStr "column", VStr "cell_label");
                   (VStr "value", VStr "Corrected Neuron")])).
  - apply contains_true. reflexivity.
  - reflexivity.
  - discriminate.
  - vm_compute. reflexivity.
  - reflexivity.
  - apply contains_true. reflexivity.
  - reflexivity.
  - constructor.
  - vm_compute. reflexivity.
Defined.

(** C1 as stated fails: with two override records for [cell_label] the field
    does not end at the value of the first. *)
Lemma first_override_is_overwritten :
  ¬ (∀ (I : Imports) (columns : list string) (row : list cell) (o o' : pyobj)
       (s : string) (msgs : list pyval) (msg : pyval) (name : string) (v : pyval),
       "message" ∈ columns →
       row_at columns row "message" = Ok (CText s) →
       s ≠ "" →
       json_loads s = Ok (VList msgs) →
       msg ∈ msgs →
       getitem msg "column" = Ok (VStr name) →
       name ∈ columns →
       getitem msg "value" = Ok v →
       auto_fill_object_from_row columns row o = (Ok tt, o') →
       getattr o' name = Some v).
Proof.
  intros Hclaim.
  specialize (Hclaim imports annotation_columns twice_corrected_row annotation
    (auto_fill_object_from_row annotation_columns twice_corrected_row annotation).2
    (dquote "[{'column':'cell_label','value':'first'},{'column':'cell_label','value':'second'}]")
    [VDict [(VStr "column", VStr "cell_label"); (VStr "value", VStr "first")];
     VDict [(VStr "column", VStr "cell_label"); (VStr "value", VStr "second")]]
    (VDict [(VStr "column", VStr "cell_label"); (VStr "value", VStr "first")])
    "cell_label" (VStr "first")).
  assert (getattr
    (auto_fill_object_from_row annotation_columns twice_corrected_row annotation).2
    "cell_label" = Some (VStr "first")) as Hfirst.
  { apply Hclaim.
    - apply contains_true. reflexivity.
    - reflexivity.
    - discriminate.
    - vm_compute. reflexivity.
    - left.
    - reflexivity.
    - apply contains_true. reflexivity.
    - reflexivity.
    - vm_compute. reflexivity. }
  vm_compute in Hfirst. discriminate Hfirst.
Qed.

(** The attribute names after mapping the row of section 8. *)
Lemma attribute_names_after_mapping_witness :
  (∀ name, hasattr annotation name = true →
     hasattr (auto_fill_object_from_row annotation_columns custom_override_row
                annotation).2 name = true) ∧
  (∀ name,
     hasattr (auto_fill_object_from_row annotation_columns custom_override_row
                annotation).2 name = true →
     hasattr annotation name = true ∨
     name ∈ override_names annotation_columns custom_override_row) ∧
  (no_message annotation_columns custom_override_row →
   ∀ name,
     hasattr (auto_fill_object_from_row annotation_columns custom_override_row
                annotation).2 name = hasattr annotation name).
Proof.
  apply (attribute_names_after_mapping annotation_columns custom_override_row
           annotation (Ok tt)).
  vm_compute. reflexivity.
Defined.

(** C2 as stated fails: an override record for [custom_field], a column that
    is no attribute of the annotation, creates that attribute. *)
Lemma override_creates_attribute :
  ¬ (∀ (I : Imports) (columns : list string) (row : list cell) (o o' : pyobj)
       (r : outcome unit) (name : string),
       auto_fill_object_from_row columns row o = (r, o') →
       hasattr o' name = hasattr o name).
Proof.
  intros Hclaim.
  specialize (Hclaim imports annotation_columns custom_override_row annotation
    (auto_fill_object_from_row annotation_columns custom_override_row annotation).2
    (Ok tt) "custom_field").
  assert (hasattr
    (auto_fill_object_from_row annotation_columns custom_override_row annotation).2
    "custom_field" = hasattr annotation "custom_field") as Hsame.
  { apply Hclaim. vm_compute. reflexivity. }
  vm_compute in Hsame. discriminate Hsame.
Qed.

(** A [message] that is not JSON: the call raises [JSONDecodeError] after the
    positional assignment of the first column. *)
Lemma undecodable_message_raises_witness :
  ∃ column rest, annotation_columns = column :: rest ∧
    auto_fill_object_from_row annotation_columns undecodable_row annotation =
    (Raise (match (assign_column annotation_columns undecodable_row column
                     annotation).1 with
            | Raise e0 => e0
            | Ok _ => JSONDecodeError
            end),
     (assign_column annotation_columns undecodable_row column annotation).2).
Proof.
  apply (undecodable_message_raises annotation_columns undecodable_row annotation
           (CText "not json") JSONDecodeError).
  - apply contains_true. reflexivity.
  - reflexivity.
  - reflexivity.
  - vm_compute. reflexivity.
Defined.

Example undecodable_message_state :
  auto_fill_object_from_row annotation_columns undecodable_row annotation =
  (Raise JSONDecodeError, setattr "cell_set_accession" (VStr "CS001") annotation).
Proof. vm_compute. reflexivity. Qed.

(** The bracketed string [[not, valid]] is no literal: the call raises and
    [synonyms] keeps its value. *)
Lemma invalid_bracketed_literal_raises_witness :
  ∃ e' o',
    auto_fill_object_from_row plain_columns invalid_literal_row annotation
      = (Raise e', o') ∧
    (no_message plain_columns invalid_literal_row →
     getattr o' "synonyms" = getattr annotation "synonyms").
Proof.
  apply (invalid_bracketed_literal_raises plain_columns invalid_literal_row
           annotation "synonyms" "[not, valid]" SyntaxError).
  - apply contains_true. reflexivity.
  - reflexivity.
  - reflexivity.
  - reflexivity.
  - reflexivity.
  - vm_compute. reflexivity.
Defined.

(** Section 8: the annotation of the sample row has one user annotation, for
    [custom_field]. *)
Lemma user_annotations_of_row_witness :
  ∃ (mapped : pyobj) (user_columns : list string) (uas : list pyval),
    auto_fill_object_from_row annotation_columns corrected_row annotation
      = (Ok tt, mapped) ∧
    (annotation_of_row annotation_columns corrected_row annotation).2
      = setattr "user_annotations" (VList uas) mapped ∧
    NoDup user_columns ∧
    (∀ column, column ∈ user_columns ↔
       column ∈ annotation_columns ∧ user_column mapped column) ∧
    Forall2 (is_user_annotation annotation_columns corrected_row) user_columns uas.
Proof.
  apply (user_annotations_of_row annotation_columns corrected_row annotation).
  - apply (bool_decide_unpack _). vm_compute. exact I.
  - vm_compute. reflexivity.
Defined.

Example custom_field_preserved :
  getattr (annotation_of_row annotation_columns corrected_row annotation).2
    "user_annotations"
  = Some (VList [VObj (new "UserAnnotation" [VStr "custom_field"; VStr "foo"])]).
Proof. vm_compute. reflexivity. Qed.

(** A transfer for an unknown accession changes nothing; a transfer for
    [CS002] goes to the first of the two annotations with that accession. *)
Lemma transfer_row_links_first_match_witness :
  transfer_row transfer_columns unmatched_transfer_row linked_cta = (Ok tt, linked_cta)
  ∧
  ∃ (a at_ : pyobj) (previous : list pyval),
    linked_annotations !! 1%nat = Some (VObj a) ∧
    held_transfers a previous ∧
    build (new "AnnotationTransfer" [VStr ""; VStr ""; VStr ""; VStr ""; VStr ""])
      (auto_fill_object_from_row transfer_columns matching_transfer_row) = Ok at_ ∧
    (transfer_row transfer_columns matching_transfer_row linked_cta).2 =
    setattr "annotations"
      (VList (<[1%nat := VObj (setattr "transferred_annotations"
                                 (VList (previous ++ [VObj at_])) a)]>
                linked_annotations)) linked_cta.
Proof.
  split.
  - apply (transfer_row_links_first_match transfer_columns unmatched_transfer_row
             linked_cta (CText "CS404") linked_annotations
             [VStr "CS001"; VStr "CS002"; VStr "CS002"]).
    + apply contains_true. reflexivity.
    + reflexivity.
    + reflexivity.
    + reflexivity.
    + repeat constructor.
    + repeat constructor.
  - apply (transfer_row_links_first_match transfer_columns matching_transfer_row
             linked_cta (CText "CS002") linked_annotations
             [VStr "CS001"; VStr "CS002"; VStr "CS002"]) with (accession := VStr "CS002").
    + apply contains_true. reflexivity.
    + reflexivity.
    + reflexivity.
    + reflexivity.
    + repeat constructor.
    + reflexivity.
    + reflexivity.
    + intros [|j] accession' Hj Hlookup; [|lia].
      inversion Hlookup; subst. reflexivity.
    + vm_compute. reflexivity.
Defined.

(** A labelset view without algorithm columns: the parser raises. *)
Lemma labelset_without_algorithm_column_raises_witness :
  ∃ e cta',
    parse_labelset_data bare_labelset_db "CCN_labelset"
      (new "CellTypeAnnotation" [VStr ""; VList []]) = (Raise e, cta').
Proof.
  apply (labelset_without_algorithm_column_raises bare_labelset_db "CCN_labelset"
           (View ["name"; "description"] [[CText "cluster"; CText "Cluster level"]])).
  - reflexivity.
  - discriminate.
  - apply contains_false. reflexivity.
Defined.

Example bare_labelset_export_fails :
  (export_cas_data bare_labelset_db "out.json").1 = Raise ValueError.
Proof. vm_compute. reflexivity. Qed.

(** Section 8: a false [algorithm_name] attaches nothing, a true one attaches
    an automated annotation with that algorithm name. *)
Example labelset_without_automated_annotation :
  let run := labelset_of_row ["label"; "algorithm_name"; "algorithm_version"]
               ["label"; "algorithm_name"; "algorithm_version"]
               [CText "cluster"; CText ""; CText ""]
               (new "Labelset" [VStr ""; VStr ""]) in
  run.1 = Ok tt ∧ getattr run.2 "automated_annotation" = Some VNone.
Proof. vm_compute. split; reflexivity. Qed.

Example labelset_with_automated_annotation :
  let run := labelset_of_row ["label"; "algorithm_name"; "algorithm_version"]
               ["label"; "algorithm_name"; "algorithm_version"]
               [CText "cluster"; CText "SciKit-v2"; CText ""]
               (new "Labelset" [VStr ""; VStr ""]) in
  run.1 = Ok tt ∧
  match getattr run.2 "automated_annotation" with
  | Some (VObj automated_annotation) => getattr automated_annotation "algorithm_name"
  | _ => None
  end = Some (VStr "SciKit-v2").
Proof. vm_compute. split; reflexivity. Qed.

End Examples.

(** * Further properties of the row mapper *)

Section loops.

Context {S X : Type}.

(** A loop raises when the body raises at one of its elements whatever the
    state. *)
Lemma for_each_member_raises (xs : list X) (body : X → M S unit) (x : X) :
  x ∈ xs →
  (∀ s, ∃ e s', body x s = (Raise e, s')) →
  ∀ s, ∃ e s', for_each xs body s = (Raise e, s').
Proof.
  intros Hin Hx. induction xs as [|y xs IH]; intros s; [by apply elem_of_nil in Hin|].
  rewrite for_each_cons. destruct (body y s) as [[[]|e] s1] eqn:Hy; [|by eauto].
  apply elem_of_cons in Hin as [->|Hin].
  - destruct (Hx s) as (e & s' & Hs). congruence.
  - by apply IH.
Qed.

End loops.

Section mapper_frame.

Context `{Imports}.

Implicit Types (o : pyobj) (columns : list string) (row : list cell).

Lemma assign_column_shape columns row column o r o' :
  assign_column columns row column o = (r, o') →
  o' = o ∨ ∃ v, o' = setattr column v o.
Proof.
  rewrite assign_column_cases. destruct (hasattr o column); [|intros [= <- <-]; by left].
  destruct (row_at columns row column) as [value|e]; [|intros [= <- <-]; by left].
  destruct (cell_truthy value); [|intros [= <- <-]; by left].
  destruct (coerce value) as [v|e]; [|intros [= <- <-]; by left].
  intros [= <- <-]. right. by exists v.
Qed.

Lemma apply_override_shape columns msg o r o' :
  apply_override columns msg o = (r, o') →
  o' = o ∨
  ∃ column name v, getitem msg "column" = Ok column ∧
    in_columns column columns = Some name ∧ o' = setattr name v o.
Proof.
  rewrite apply_override_cases.
  destruct (getitem msg "column") as [column|e]; [|intros [= <- <-]; by left].
  destruct (in_columns column columns) as [name|] eqn:Hname;
    [|intros [= <- <-]; by left].
  destruct (getitem msg "value") as [v|e]; [|intros [= <- <-]; by left].
  intros [= <- <-]. right. by exists column, name, v.
Qed.

(** The [message] block changes the entity only by [setattr] on the columns
    that its records name. *)
Lemma apply_message_preserves (P : pyobj → Prop) columns row o r o' :
  (∀ name v s, name ∈ override_names columns row → P s → P (setattr name v s)) →
  P o → apply_message columns row o = (r, o') → P o'.
Proof.
  intros Hset HP. unfold apply_message, bind, lift, ret.
  unfold override_names in Hset.
  destruct (contains columns "message"); [|by intros [= <- <-]].
  destruct (row_at columns row "message") as [text|e]; [|by intros [= <- <-]].
  destruct (cell_truthy text); [|by intros [= <- <-]].
  destruct (json_loads_cell text) as [messages|e]; [|by intros [= <- <-]].
  destruct (py_iter messages) as [msgs|e]; [|by intros [= <- <-]].
  apply (for_each_invariant P); [|done].
  intros msg s r1 s1 Hmsg Hs Hstep.
  destruct (apply_override_shape _ _ _ _ _ Hstep)
    as [->|(column & name & v & Hcolumn & Hname & ->)]; [done|].
  apply Hset; [|done]. apply list_elem_of_omap. exists msg. split; [done|].
  by rewrite Hcolumn.
Qed.

Lemma override_names_listed columns row name :
  name ∈ override_names columns row → name ∈ columns.
Proof.
  unfold override_names.
  destruct (contains columns "message"); [|by intros ?%elem_of_nil].
  destruct (row_at columns row "message") as [text|e]; [|by intros ?%elem_of_nil].
  destruct (cell_truthy text); [|by intros ?%elem_of_nil].
  destruct (json_loads_cell text) as [messages|e]; [|by intros ?%elem_of_nil].
  destruct (py_iter messages) as [msgs|e]; [|by intros ?%elem_of_nil].
  intros (msg & _ & Hname)%list_elem_of_omap.
  destruct (getitem msg "column") as [column|e]; [|done].
  by apply in_columns_Some in Hname as [_ ?].
Qed.

(** The mapper changes the entity only by [setattr] on listed columns. *)
Lemma mapping_preserves (P : pyobj → Prop) columns row o r o' :
  (∀ name v s, name ∈ columns → P s → P (setattr name v s)) →
  P o → auto_fill_object_from_row columns row o = (r, o') → P o'.
Proof.
  intros Hset. apply (for_each_invariant P).
  intros column s r1 s1 Hcolumn Hs Hstep.
  destruct (fill_step_inv _ _ _ _ _ _ Hstep)
    as (r2 & s2 & Hassign & [[-> Hmsg]|(e & -> & -> & ->)]).
  - eapply apply_message_preserves; [|
      |exact Hmsg].
    + intros name v t Hname. apply Hset. by eapply override_names_listed.
    + destruct (assign_column_shape _ _ _ _ _ _ Hassign) as [->|[v ->]]; [done|].
      by apply Hset.
  - destruct (assign_column_shape _ _ _ _ _ _ Hassign) as [->|[v ->]]; [done|].
    by apply Hset.
Qed.

(** X1. Whatever the outcome, the mapper leaves the class of the entity and
    every attribute whose name is not in the columns list as they were; this
    holds for override records too, which are applied only for listed
    columns. *)
Theorem mapping_touches_listed_columns_only columns row o r o' :
  auto_fill_object_from_row columns row o = (r, o') →
  ob_class o' = ob_class o ∧
  ∀ name, name ∉ columns → getattr o' name = getattr o name.
Proof.
  intros Hrun.
  cut (ob_class o' = ob_class o ∧ ∀ name, name ∉ columns →
         ob_dict o' !! name = ob_dict o !! name).
  { intros [Hclass Hdict]. split; [done|]. intros name Hname.
    unfold getattr. by rewrite Hclass, Hdict. }
  revert Hrun.
  apply (mapping_preserves (λ s, ob_class s = ob_class o ∧ ∀ name, name ∉ columns →
                                   ob_dict s !! name = ob_dict o !! name)); [|done].
  intros name v s Hname [Hclass Hdict]. split; [done|].
  intros name' Hname'. simpl. rewrite lookup_insert_ne; [by apply Hdict|].
  by intros ->.
Qed.

End mapper_frame.

Section mapper_values.

Context `{Imports}.

Implicit Types (o : pyobj) (columns : list string) (row : list cell).

(** One pass of the loop body, seen from a column that no override record
    names. *)
Lemma fill_step_beside_overrides columns row column c o o1 :
  column ∉ override_names columns row →
  hasattr o column = true →
  fill_step columns row c o = (Ok tt, o1) →
  hasattr o1 column = true ∧
  (c ≠ column → getattr o1 column = getattr o column) ∧
  (c = column →
   ∃ value, row_at columns row column = Ok value ∧
     if cell_truthy value
     then ∃ v, coerce value = Ok v ∧ getattr o1 column = Some v
     else getattr o1 column = getattr o column).
Proof.
  intros Hnot Hattr Hstep.
  destruct (fill_step_inv _ _ _ _ _ _ Hstep)
    as (r1 & o2 & Hassign & [[-> Hmsg]|(e & _ & ? & _)]); [|done].
  assert (getattr o1 column = getattr o2 column) as Hsame.
  { revert Hmsg.
    apply (apply_message_preserves (λ s, getattr s column = getattr o2 column));
      [|done].
    intros name v s Hname Hs. rewrite getattr_setattr_ne; [done|]. by intros ->. }
  rewrite Hsame. split.
  - apply (fill_step_hasattr _ _ _ _ _ _ column Hstep). done.
  - split.
    + intros Hne. by eapply assign_column_frame.
    + intros ->. rewrite assign_column_cases, Hattr in Hassign.
      destruct (row_at columns row column) as [value|e]; [|done].
      exists value. split; [done|].
      destruct (cell_truthy value); [|by inversion Hassign].
      destruct (coerce value) as [v|e]; [|done].
      inversion Hassign; subst. exists v. split; [done|]. apply getattr_setattr_eq.
Qed.

Lemma loop_beside_overrides columns row column (cs : list string) o o' :
  column ∉ override_names columns row →
  hasattr o column = true →
  for_each cs (fill_step columns row) o = (Ok tt, o') →
  (column ∉ cs → getattr o' column = getattr o column) ∧
  (column ∈ cs →
   ∃ value, row_at columns row column = Ok value ∧
     if cell_truthy value
     then ∃ v, coerce value = Ok v ∧ getattr o' column = Some v
     else getattr o' column = getattr o column).
Proof.
  intros Hnot. revert o. induction cs as [|c cs IH]; intros o Hattr Hrun.
  - inversion Hrun; subst. split; [done|]. by intros ?%elem_of_nil.
  - rewrite for_each_cons in Hrun.
    destruct (fill_step columns row c o) as [[[]|e] o1] eqn:Hstep; [|done].
    destruct (fill_step_beside_overrides _ _ _ _ _ _ Hnot Hattr Hstep)
      as (Hattr1 & Hother & Hthis).
    destruct (IH o1 Hattr1 Hrun) as [Hout Hin]. split.
    + intros [Hne Hcs]%not_elem_of_cons. rewrite Hout by done. by apply Hother.
    + intros Hmem. destruct (decide (column ∈ cs)) as [Hcs|Hcs].
      * destruct (Hin Hcs) as (value & Hvalue & Hres). exists value. split; [done|].
        destruct (cell_truthy value) eqn:Htrue; [done|]. rewrite Hres.
        destruct (decide (c = column)) as [Heq|Hne]; [|by apply Hother].
        destruct (Hthis Heq) as (value' & Hvalue' & Hres').
        rewrite Hvalue in Hvalue'. injection Hvalue' as <-. by rewrite Htrue in Hres'.
      * apply elem_of_cons in Hmem as [->|?]; [|done].
        rewrite (Hout Hcs). by apply Hthis.
Qed.

(** X2. In a row that is mapped without an exception, a field that matches a
    column and is named by no override record ends at the row's value for its
    column (kept as it was for a false value, evaluated as a literal for a
    bracketed string), whatever overrides the [message] holds for other
    columns. *)
Theorem positional_value_beside_overrides columns row o o' column :
  auto_fill_object_from_row columns row o = (Ok tt, o') →
  column ∈ columns →
  hasattr o column = true →
  column ∉ override_names columns row →
  ∃ value, row_at columns row column = Ok value ∧
    match value with
    | CNull => getattr o' column = getattr o column
    | CInt z => z = 0 ∧ getattr o' column = getattr o column
    | CText s =>
        if String.eqb s ""
        then getattr o' column = getattr o column
        else if startswith "[" s && endswith "]" s
             then ∃ v, literal_eval s = Ok v ∧ getattr o' column = Some v
             else getattr o' column = Some (VStr s)
    end.
Proof.
  intros Hrun Hin Hattr Hnot.
  destruct (loop_beside_overrides columns row column columns o o' Hnot Hattr Hrun)
    as [_ Hvals].
  destruct (Hvals Hin) as (value & Hvalue & Hres).
  exists value. split; [done|].
  destruct value as [|z|s]; simpl in Hres.
  - done.
  - destruct (Z.eqb_spec z 0) as [->|Hz]; simpl in Hres; [done|].
    by destruct Hres as (v & ? & _).
  - destruct (String.eqb s ""); simpl in Hres; [done|].
    destruct Hres as (v & Hv & Hget).
    destruct (startswith "[" s && endswith "]" s); [by exists v|].
    by inversion Hv; subst.
Qed.

(** X3. A row without overrides is mapped without an exception when, for
    every column that is a field of the entity, the row has a cell that is
    [None], the integer 0, or a string that, if bracketed, is a valid
    literal. *)
Theorem well_formed_row_is_mapped columns row o :
  no_message columns row →
  (∀ column, column ∈ columns → hasattr o column = true →
     ∃ value, row_at columns row column = Ok value ∧
       match value with
       | CNull => True
       | CInt z => z = 0
       | CText s =>
           startswith "[" s && endswith "]" s = true → ∃ v, literal_eval s = Ok v
       end) →
  ∃ o', auto_fill_object_from_row columns row o = (Ok tt, o').
Proof.
  intros Hno Hcells. unfold auto_fill_object_from_row.
  assert (∀ cs o1, (∀ c, c ∈ cs → c ∈ columns) →
            (∀ name, hasattr o1 name = hasattr o name) →
            ∃ o', for_each cs (fill_step columns row) o1 = (Ok tt, o')) as Hloop.
  { induction cs as [|c cs IH]; intros o1 Hsub Hsame; [by exists o1|].
    rewrite for_each_cons, fill_step_none by done.
    assert (∃ o2, assign_column columns row c o1 = (Ok tt, o2)) as [o2 Hstep].
    { rewrite assign_column_cases. destruct (hasattr o1 c) eqn:Hattr; [|by eauto].
      rewrite Hsame in Hattr.
      destruct (Hcells c (Hsub c ltac:(by left)) Hattr) as (value & -> & Hvalue).
      destruct value as [|z|s]; simpl.
      - by eauto.
      - subst z. by eauto.
      - destruct (String.eqb s ""); simpl; [by eauto|].
        destruct (startswith "[" s && endswith "]" s); [|by eauto].
        destruct Hvalue as [v ->]; by eauto. }
    rewrite Hstep. apply IH.
    - intros c' Hc'. apply Hsub. by right.
    - intros name. rewrite <- Hsame. by eapply assign_column_hasattr. }
  by apply Hloop.
Qed.

(** A column that is a field of the entity and whose assignment fails makes
    the loop raise. *)
Lemma failing_assignment_raises columns row column (cs : list string) o :
  (∀ s, hasattr s column = true →
     ∃ e s', assign_column columns row column s = (Raise e, s')) →
  column ∈ cs →
  hasattr o column = true →
  ∃ e' o', for_each cs (fill_step columns row) o = (Raise e', o').
Proof.
  intros Hfail. revert o.
  induction cs as [|c cs IH]; intros o Hin Hattr; [by apply elem_of_nil in Hin|].
  rewrite for_each_cons.
  destruct (fill_step columns row c o) as [[[]|e'] o1] eqn:Hstep; [|by eauto].
  destruct (decide (c = column)) as [->|Hne].
  - destruct (fill_step_inv _ _ _ _ _ _ Hstep)
      as (r1 & o2 & Hassign & [[-> _]|(e' & _ & ? & _)]); [|done].
    destruct (Hfail o Hattr) as (e & s' & Hraise). congruence.
  - apply IH.
    + by apply elem_of_cons in Hin as [?|?].
    + by apply (fill_step_hasattr _ _ _ _ _ _ column Hstep).
Qed.

(** X4. A column that is a field of the entity and holds a non-zero integer
    makes the mapper raise: only strings have [startswith]. *)
Theorem integer_cell_raises columns row o column (z : Z) :
  column ∈ columns →
  hasattr o column = true →
  row_at columns row column = Ok (CInt z) →
  z ≠ 0 →
  ∃ e' o', auto_fill_object_from_row columns row o = (Raise e', o').
Proof.
  intros Hin Hattr Hrow Hz.
  apply (failing_assignment_raises columns row column columns o); [|done|done].
  intros s Hs. rewrite assign_column_cases, Hs, Hrow. simpl.
  destruct (Z.eqb_spec z 0); [done|]. simpl. by eauto.
Qed.

(** X5. A row that is too short to hold the cell of a column that is a field
    of the entity makes the mapper raise. *)
Theorem short_row_raises columns row o column (i : nat) :
  index_of column columns = Some i →
  (length row ≤ i)%nat →
  hasattr o column = true →
  ∃ e' o', auto_fill_object_from_row columns row o = (Raise e', o').
Proof.
  intros Hi Hlen Hattr.
  apply (failing_assignment_raises columns row column columns o); [| |done].
  - intros s Hs. rewrite assign_column_cases, Hs. unfold row_at.
    rewrite Hi, (lookup_ge_None_2 row i) by done. by eauto.
  - apply index_of_first in Hi as [Hi _]. by eapply list_elem_of_lookup_2.
Qed.

(** X6. When the [message] decodes to a sequence that holds a record without
    a [column] key, or a record that names a listed column and has no [value]
    key, the mapper raises. *)
Theorem malformed_override_raises columns row o (text : cell)
    (messages : pyval) (msgs : list pyval) (msg : pyval) :
  "message" ∈ columns →
  row_at columns row "message" = Ok text →
  cell_truthy text = true →
  json_loads_cell text = Ok messages →
  py_iter messages = Ok msgs →
  msg ∈ msgs →
  ((∃ e, getitem msg "column" = Raise e) ∨
   (∃ name e, getitem msg "column" = Ok (VStr name) ∧ name ∈ columns ∧
      getitem msg "value" = Raise e)) →
  ∃ e' o', auto_fill_object_from_row columns row o = (Raise e', o').
Proof.
  intros Hmessage Hrow Htrue Hjson Hiter Hmsg Hbad.
  destruct columns as [|column rest] eqn:Hcolumns; [by apply elem_of_nil in Hmessage|].
  rewrite <- Hcolumns in *. unfold auto_fill_object_from_row.
  enough (∃ e' o', for_each (column :: rest) (fill_step columns row) o = (Raise e', o'))
    as Hgoal by (by rewrite <- Hcolumns in Hgoal).
  rewrite for_each_cons. unfold fill_step at 1, bind at 1.
  destruct (assign_column columns row column o) as [[[]|e0] o1]; [|by eauto].
  unfold apply_message, bind, lift.
  rewrite (proj2 (contains_true _ _) Hmessage), Hrow, Htrue, Hjson, Hiter.
  destruct (for_each_member_raises msgs (apply_override columns) msg Hmsg) with (s := o1)
    as (e & s' & ->); [|by eauto].
  intros s. rewrite apply_override_cases.
  destruct Hbad as [[e ->]|(name & e & -> & Hname & ->)]; [by eauto|].
  rewrite (proj2 (in_columns_Some (VStr name) columns name)) by done. by eauto.
Qed.

(** X7. When the [message] decodes to a value that cannot be iterated over
    (a number, a boolean, [null]), the mapper raises, and the entity is left
    as the positional assignment of the first column left it. *)
Theorem uniterable_message_raises columns row o (text : cell)
    (messages : pyval) (e : exn) :
  "message" ∈ columns →
  row_at columns row "message" = Ok text →
  cell_truthy text = true →
  json_loads_cell text = Ok messages →
  py_iter messages = Raise e →
  ∃ column rest, columns = column :: rest ∧
    auto_fill_object_from_row columns row o =
    (Raise (match (assign_column columns row column o).1 with
            | Raise e0 => e0
            | Ok _ => e
            end),
     (assign_column columns row column o).2).
Proof.
  intros Hmessage Hrow Htrue Hjson Hiter.
  destruct columns as [|column rest] eqn:Hcolumns; [by apply elem_of_nil in Hmessage|].
  exists column, rest. split; [done|]. rewrite <- Hcolumns in *.
  unfold auto_fill_object_from_row. rewrite Hcolumns at 1.
  rewrite for_each_cons. unfold fill_step at 1, bind at 1.
  destruct (assign_column columns row column o) as [[[]|e0] o1]; [|done].
  unfold apply_message, bind, lift.
  by rewrite (proj2 (contains_true _ _) Hmessage), Hrow, Htrue, Hjson, Hiter.
Qed.

End mapper_values.

(** * Further properties of the classifier and of the dispatch *)

Section classifier_more.

Context `{Imports}.

Lemma table_names_loop_Ok (i : nat) (rows : list (list cell)) (acc l : list string) :
  for_each rows (table_name_step i) acc = (Ok tt, l) →
  Forall (λ row, is_Some (row !! i)) rows ∧
  ∃ names, l = acc ++ names ∧
    Forall (λ name, endswith_any cas_table_postfixes name = true) names.
Proof.
  revert acc. induction rows as [|row rows IH]; intros acc Hrun.
  - inversion Hrun; subst. split; [done|]. exists []. by rewrite app_nil_r.
  - rewrite for_each_cons in Hrun.
    unfold table_name_step at 1, bind, lift, modify, ret in Hrun.
    destruct (row !! i) as [c|] eqn:Hc; [|done].
    destruct (endswith_any cas_table_postfixes (str c)) eqn:Hsuf.
    + destruct (IH _ Hrun) as (Hrows & names & -> & Hnames). split.
      * constructor; [by eexists|done].
      * exists (str c :: names). split; [by rewrite <- app_assoc|]. by constructor.
    + destruct (IH _ Hrun) as (Hrows & names & -> & Hnames). split.
      * constructor; [by eexists|done].
      * by exists names.
Qed.

Lemma table_names_loop_total (i : nat) (rows : list (list cell)) (acc : list string) :
  Forall (λ row, is_Some (row !! i)) rows →
  ∃ l, for_each rows (table_name_step i) acc = (Ok tt, l).
Proof.
  intros Hrows. revert acc. induction Hrows as [|row rows [c Hc] _ IH]; intros acc.
  - by exists acc.
  - rewrite for_each_cons. unfold table_name_step at 1, bind, lift, modify, ret.
    rewrite Hc. destruct (endswith_any cas_table_postfixes (str c)); apply IH.
Qed.

(** X8. [get_table_names] returns a list exactly when the database has the
    view [table_view], the view has a column [table], and every row has a
    cell in that column; otherwise it raises. *)
Theorem get_table_names_returns_iff (db : gmap string view) :
  (∃ names, get_table_names db = Ok names) ↔
  ∃ v i, db !! "table_view" = Some v ∧
    index_of "table" (columns v) = Some i ∧
    Forall (λ row, is_Some (row !! i)) (rows v).
Proof.
  unfold get_table_names, select_all. split.
  - intros [names Hnames]. destruct (db !! "table_view") as [v|]; simpl in Hnames; [|done].
    destruct (index_of "table" (columns v)) as [i|] eqn:Hi; [|done].
    destruct (for_each (rows v) (table_name_step i) []) as [[[]|e] l] eqn:Hloop; [|done].
    exists v, i. split; [done|]. split; [done|].
    by apply table_names_loop_Ok in Hloop as [? _].
  - intros (v & i & -> & -> & Hrows).
    destruct (table_names_loop_total i (rows v) [] Hrows) as [l ->]. by exists l.
Qed.

(** X9. Every name that [get_table_names] returns ends with one of the four
    suffixes. *)
Theorem classified_names_have_suffix (db : gmap string view) (names : list string)
    (table_name : string) :
  get_table_names db = Ok names →
  table_name ∈ names →
  endswith_any cas_table_postfixes table_name = true.
Proof.
  unfold get_table_names, select_all. intros Hnames Hin.
  destruct (db !! "table_view") as [v|]; simpl in Hnames; [|done].
  destruct (index_of "table" (columns v)) as [i|]; [|done].
  destruct (for_each (rows v) (table_name_step i) []) as [[[]|e] l] eqn:Hloop; [|done].
  injection Hnames as <-.
  apply table_names_loop_Ok in Hloop as (_ & names' & -> & Hall).
  rewrite Forall_forall in Hall. by apply Hall.
Qed.

(** The last character of a text that ends with a non-empty suffix is the
    last character of the suffix. *)
Lemma endswith_last (suf s : string) :
  endswith suf s = true →
  suf ≠ "" →
  String.get (String.length s - 1) s = String.get (String.length suf - 1) suf.
Proof.
  intros [p ->]%endswith_spec Hsuf.
  rewrite string_length_app.
  rewrite (String.append_correct2 p suf (String.length suf - 1)).
  f_equal. destruct suf; [done|]. simpl. lia.
Qed.

(** No text ends with two of the four suffixes. *)
Lemma suffixes_exclusive (s suf suf' : string) :
  suf ∈ cas_table_postfixes →
  suf' ∈ cas_table_postfixes →
  endswith suf s = true →
  endswith suf' s = true →
  suf = suf'.
Proof.
  intros Hsuf Hsuf' Hs Hs'.
  assert (String.get (String.length suf - 1) suf
          = String.get (String.length suf' - 1) suf') as Hlast.
  { rewrite <- (endswith_last suf s), <- (endswith_last suf' s); try done.
    - intros ->. revert Hsuf'. by rewrite <- contains_true.
    - intros ->. revert Hsuf. by rewrite <- contains_true. }
  unfold cas_table_postfixes in Hsuf, Hsuf'.
  repeat (apply elem_of_cons in Hsuf as [->|Hsuf]);
    try (by apply elem_of_nil in Hsuf);
    repeat (apply elem_of_cons in Hsuf' as [->|Hsuf']);
    try (by apply elem_of_nil in Hsuf'); done.
Qed.

(** X10. The suffix of a table name selects its parser, whatever the order of
    the tests: in particular a name that ends with [_annotation_transfer] is
    never given to the annotation parser, and a name with none of the
    suffixes is ignored. *)
Theorem dispatch_by_suffix (db : gmap string view) (table_name : string)
    (cta : pyobj) :
  (endswith "_metadata" table_name = true →
   dispatch db table_name cta = (parse_metadata_data db table_name ;;; ret tt) cta) ∧
  (endswith "_annotation" table_name = true →
   dispatch db table_name cta = parse_annotation_data db table_name cta) ∧
  (endswith "_labelset" table_name = true →
   dispatch db table_name cta = parse_labelset_data db table_name cta) ∧
  (endswith "_annotation_transfer" table_name = true →
   dispatch db table_name cta = parse__annotation_transfer_data db table_name cta) ∧
  (endswith_any cas_table_postfixes table_name = false →
   dispatch db table_name cta = (Ok tt, cta)).
Proof.
  assert (∀ suf suf', suf ∈ cas_table_postfixes → suf' ∈ cas_table_postfixes →
            suf ≠ suf' → endswith suf table_name = true →
            endswith suf' table_name = false) as Hother.
  { intros suf suf' Hsuf Hsuf' Hne Hs.
    destruct (endswith suf' table_name) eqn:Hs'; [|done].
    destruct Hne. by eapply suffixes_exclusive. }
  assert (∀ suf, contains cas_table_postfixes suf = true →
            suf ∈ cas_table_postfixes) as Hmem by (intros suf; apply contains_true).
  unfold dispatch. repeat split.
  - by intros ->.
  - intros Hs. rewrite Hs.
    by rewrite (Hother "_annotation" "_metadata") by (done || by apply Hmem).
  - intros Hs. rewrite Hs.
    rewrite (Hother "_labelset" "_metadata") by (done || by apply Hmem).
    by rewrite (Hother "_labelset" "_annotation") by (done || by apply Hmem).
  - intros Hs. rewrite Hs.
    rewrite (Hother "_annotation_transfer" "_metadata") by (done || by apply Hmem).
    rewrite (Hother "_annotation_transfer" "_annotation") by (done || by apply Hmem).
    by rewrite (Hother "_annotation_transfer" "_labelset") by (done || by apply Hmem).
  - unfold endswith_any, cas_table_postfixes. simpl.
    rewrite !orb_false_iff. by intros (-> & -> & -> & -> & _).
Qed.

End classifier_more.

(** * Further properties of the annotation-transfer parser *)

Section transfers_more.

Context `{Imports}.

Implicit Types (o cta : pyobj) (columns : list string) (row : list cell).

(** [transfer_row] as a case analysis. *)
Lemma transfer_row_cases columns row cta :
  transfer_row columns row cta =
  if contains columns "target_node_accession" then
    match row_at columns row "target_node_accession" with
    | Raise e => (Raise e, cta)
    | Ok target =>
        if cell_truthy target then
          match getattr cta "annotations" with
          | None => (Raise AttributeError, cta)
          | Some seq =>
              match py_iter seq with
              | Raise e => (Raise e, cta)
              | Ok items =>
                  match accession_matches target items with
                  | Raise e => (Raise e, cta)
                  | Ok bs =>
                      match first_true bs with
                      | None => (Ok tt, cta)
                      | Some i =>
                          match build (new "AnnotationTransfer"
                                         [VStr ""; VStr ""; VStr ""; VStr ""; VStr ""])
                                  (auto_fill_object_from_row columns row) with
                          | Raise e => (Raise e, cta)
                          | Ok at_ =>
                              match items !! i with
                              | None => (Raise IndexError, cta)
                              | Some a =>
                                  match attach_transfer at_ a with
                                  | Raise e => (Raise e, cta)
                                  | Ok a' =>
                                      (Ok tt,
                                       setattr "annotations"
                                         (with_items seq (<[i := a']> items)) cta)
                                  end
                              end
                          end
                      end
                  end
              end
          end
        else (Ok tt, cta)
    end
  else (Ok tt, cta).
Proof.
  unfold transfer_row, bind, get, lift, modify, ret, val_getattr.
  destruct (contains columns "target_node_accession"); [|done].
  destruct (row_at columns row "target_node_accession") as [target|e]; [|done].
  destruct (cell_truthy target); [|done].
  destruct (getattr cta "annotations") as [seq|]; [|done].
  destruct (py_iter seq) as [items|e]; [|done].
  destruct (accession_matches target items) as [bs|e]; [|done].
  destruct (first_true bs) as [i|]; [|done].
  destruct (build _ _) as [at_|e]; [|done].
  destruct (items !! i) as [a|]; [|done].
  by destruct (attach_transfer at_ a).
Qed.

(** X11. A transfer view without a [target_node_accession] column, or whose
    rows all have a false value in it, changes nothing and raises nothing,
    on any document, even one without annotations. *)
Theorem transfers_without_target_are_skipped (db : gmap string view)
    (table_name : string) (v : view) cta :
  db !! (table_name +:+ "_view") = Some v →
  ("target_node_accession" ∉ columns v ∨
   ∀ row, row ∈ rows v →
     ∃ target, row_at (columns v) row "target_node_accession" = Ok target ∧
       cell_truthy target = false) →
  parse__annotation_transfer_data db table_name cta = (Ok tt, cta).
Proof.
  intros Hv Hskip.
  unfold parse__annotation_transfer_data, bind, lift, select_all. rewrite Hv.
  assert (∀ rows', (∀ row, row ∈ rows' → row ∈ rows v) →
            for_each rows' (transfer_row (columns v)) cta = (Ok tt, cta)) as Hloop.
  { induction rows' as [|row rows' IH]; intros Hsub; [done|].
    rewrite for_each_cons, transfer_row_cases.
    destruct Hskip as [Habsent|Hfalse].
    - rewrite (proj2 (contains_false _ _) Habsent). apply IH.
      intros row' Hrow'. apply Hsub. by right.
    - destruct (Hfalse row (Hsub row ltac:(by left))) as (target & -> & ->).
      destruct (contains (columns v) "target_node_accession");
        apply IH; intros row' Hrow'; apply Hsub; by right. }
  by apply Hloop.
Qed.

(** X12. When no annotation of the document has the accession that a row
    targets (in particular when the document has no annotations yet, as for a
    transfer table listed before the annotation table), the transfer parser
    changes nothing and raises nothing. *)
Theorem unmatched_transfers_are_dropped (db : gmap string view)
    (table_name : string) (v : view) cta (annotations accessions : list pyval) :
  db !! (table_name +:+ "_view") = Some v →
  getattr cta "annotations" = Some (VList annotations) →
  Forall2 (λ a accession, val_getattr a "cell_set_accession" = Ok accession)
    annotations accessions →
  (∀ row, row ∈ rows v →
     ∃ target, row_at (columns v) row "target_node_accession" = Ok target ∧
       Forall (λ accession, eq_cell accession target = false) accessions) →
  parse__annotation_transfer_data db table_name cta = (Ok tt, cta).
Proof.
  intros Hv Hcur Hacc Hnone.
  unfold parse__annotation_transfer_data, bind, lift, select_all. rewrite Hv.
  assert (∀ rows', (∀ row, row ∈ rows' → row ∈ rows v) →
            for_each rows' (transfer_row (columns v)) cta = (Ok tt, cta)) as Hloop.
  { induction rows' as [|row rows' IH]; intros Hsub; [done|].
    rewrite for_each_cons, transfer_row_cases.
    destruct (Hnone row (Hsub row ltac:(by left))) as (target & -> & Hall).
    rewrite Hcur. simpl py_iter. cbv iota.
    rewrite (accession_matches_Forall2 target _ _ Hacc).
    rewrite first_true_None by (apply Forall_fmap; by eapply Forall_impl).
    destruct (contains (columns v) "target_node_accession"), (cell_truthy target);
      apply IH; intros row' Hrow'; apply Hsub; by right. }
  by apply Hloop.
Qed.

Lemma attach_transfer_frame (at_ : pyobj) (a a' : pyval) (name : string) :
  attach_transfer at_ a = Ok a' →
  name ≠ "transferred_annotations" →
  val_getattr a' name = val_getattr a name.
Proof.
  intros Hattach Hne.
  destruct (attach_transfer_Ok _ _ _ Hattach) as (o & previous & -> & _ & ->).
  simpl. rewrite getattr_setattr_ne; [done|]. by intros <-.
Qed.

(** X13. Whatever its outcome, the transfer parser on a document whose
    annotations are a list leaves every other attribute of the document as
    it was, keeps the number and the order of the annotations, and changes
    no attribute of an annotation but [transferred_annotations]; the
    accessions that later rows are matched against are the original ones. *)
Theorem transfer_parser_keeps_annotations (db : gmap string view)
    (table_name : string) cta (annotations : list pyval) (r : outcome unit)
    (cta' : pyobj) :
  getattr cta "annotations" = Some (VList annotations) →
  parse__annotation_transfer_data db table_name cta = (r, cta') →
  (∀ name, name ≠ "annotations" → getattr cta' name = getattr cta name) ∧
  ∃ annotations',
    getattr cta' "annotations" = Some (VList annotations') ∧
    Forall2 (λ a a', ∀ name, name ≠ "transferred_annotations" →
                       val_getattr a' name = val_getattr a name)
      annotations annotations'.
Proof.
  intros Hcur.
  unfold parse__annotation_transfer_data, bind at 1, lift at 1.
  destruct (select_all db (table_name +:+ "_view")) as [v|e].
  - apply (for_each_invariant (λ s,
      (∀ name, name ≠ "annotations" → getattr s name = getattr cta name) ∧
      ∃ annotations',
        getattr s "annotations" = Some (VList annotations') ∧
        Forall2 (λ a a', ∀ name, name ≠ "transferred_annotations" →
                           val_getattr a' name = val_getattr a name)
          annotations annotations')).
    + intros row s r1 s1 _ (Hframe & l & Hl & Hall). rewrite transfer_row_cases.
      destruct (contains (columns v) "target_node_accession");
        [|intros [= <- <-]; by eauto].
      destruct (row_at (columns v) row "target_node_accession") as [target|e];
        [|intros [= <- <-]; by eauto].
      destruct (cell_truthy target); [|intros [= <- <-]; by eauto].
      rewrite Hl. simpl py_iter. cbv iota.
      destruct (accession_matches target l) as [bs|e]; [|intros [= <- <-]; by eauto].
      destruct (first_true bs) as [i|]; [|intros [= <- <-]; by eauto].
      destruct (build _ _) as [at_|e]; [|intros [= <- <-]; by eauto].
      destruct (l !! i) as [a|] eqn:Ha; [|intros [= <- <-]; by eauto].
      destruct (attach_transfer at_ a) as [a'|e] eqn:Hattach;
        [|intros [= <- <-]; by eauto].
      intros [= <- <-]. split.
      * intros name Hname. rewrite getattr_setattr_ne by done. by apply Hframe.
      * exists (<[i := a']> l). split; [apply getattr_setattr_eq|].
        destruct (Forall2_lookup_r _ _ _ _ _ Hall Ha) as (a0 & Ha0 & Hsame).
        rewrite <- (list_insert_id annotations i a0 Ha0).
        apply Forall2_insert; [done|].
        intros name Hname.
        rewrite (attach_transfer_frame _ _ _ name Hattach Hname). by apply Hsame.
    + split; [done|]. exists annotations. split; [done|].
      by apply Forall_Forall2_diag, Forall_true.
  - intros [= <- <-]. split; [done|]. exists annotations. split; [done|].
    by apply Forall_Forall2_diag, Forall_true.
Qed.

End transfers_more.

(** * Further properties of the annotation and labelset parsers *)

Section sections_more.

Context `{Imports}.

Implicit Types (o cta : pyobj) (columns : list string) (row : list cell).

(** A parser that returns has appended one object per row to the list that
    the document held. *)
Lemma extend_attr_appends (name : string) (object_of_row : list cell → outcome pyobj)
    (rows : list (list cell)) (existing : list pyval) cta cta' :
  held_entries cta name existing →
  extend_attr name
    (for_each rows (λ row, x <~ lift (object_of_row row) ;; append (VObj x))) cta
    = (Ok tt, cta') →
  ∃ objects,
    cta' = setattr name (VList (existing ++ (VObj <$> objects))) cta ∧
    Forall2 (λ row x, object_of_row row = Ok x) rows objects.
Proof.
  intros (cur & Hcur & Hheld). unfold extend_attr. rewrite Hcur.
  destruct (truthy cur).
  - subst cur.
    destruct (for_each _ _ (VList existing)) as [[[]|e] items] eqn:Hloop; [|done].
    intros [= <-]. destruct (collect_loop _ _ _ _ Hloop) as (objects & -> & Hall).
    by exists objects.
  - subst existing.
    destruct (for_each _ _ (VList [])) as [[[]|e] items] eqn:Hloop; [|done].
    intros [= <-]. destruct (collect_loop _ _ _ _ Hloop) as (objects & -> & Hall).
    by exists objects.
Qed.

(** A parser that raises on a document that holds no objects of its kind
    leaves the document as it was. *)
Lemma extend_attr_raises (name : string) (loop : M pyval unit) cta (e : exn) cta' :
  (∀ cur, getattr cta name = Some cur → truthy cur = false) →
  extend_attr name loop cta = (Raise e, cta') →
  cta' = cta.
Proof.
  intros Hfalse. unfold extend_attr.
  destruct (getattr cta name) as [cur|]; [|by intros [= _ <-]].
  rewrite (Hfalse cur eq_refl).
  destruct (loop (VList [])) as [[[]|e'] items]; [done|]. by intros [= _ <-].
Qed.

(** X14. When the annotation parser returns, the document holds the
    annotations it held (none when its [annotations] were [None] or empty),
    in their order, followed by one annotation per row of the view, in the
    order of the rows; no other attribute of the document changes. *)
Theorem annotation_parser_appends (db : gmap string view) (table_name : string)
    (v : view) cta cta' (existing : list pyval) :
  db !! (table_name +:+ "_view") = Some v →
  held_entries cta "annotations" existing →
  parse_annotation_data db table_name cta = (Ok tt, cta') →
  (∀ name, name ≠ "annotations" → getattr cta' name = getattr cta name) ∧
  ∃ annotations,
    held_entries cta' "annotations" (existing ++ (VObj <$> annotations)) ∧
    Forall2 (λ row a, build (new "Annotation" [VStr ""; VStr ""])
                        (annotation_of_row (columns v) row) = Ok a)
      (rows v) annotations.
Proof.
  intros Hv Hheld. unfold parse_annotation_data, bind at 1, lift at 1, select_all.
  rewrite Hv. destruct (rows v) as [|row rows] eqn:Hrows.
  - intros [= <-]. split; [done|]. exists []. by rewrite app_nil_r.
  - intros Hrun.
    destruct (extend_attr_appends _ _ _ _ _ _ Hheld Hrun) as (annotations & -> & Hall).
    split.
    + intros name Hname. by apply getattr_setattr_ne.
    + exists annotations. split; [|done].
      eexists. split; [apply getattr_setattr_eq|].
      inversion Hall as [|row0 a0 rows0 annotations0]; subst. simpl truthy.
      by destruct existing.
Qed.

(** X15. When the labelset parser returns, the document holds the labelsets
    it held (none when its [labelsets] were [None] or empty) followed by one
    labelset per row of the view, in the order of the rows, each built with
    the column names and with the names stripped of [automated_annotation_];
    no other attribute of the document changes. *)
Theorem labelset_parser_appends (db : gmap string view) (table_name : string)
    (v : view) cta cta' (existing : list pyval) :
  db !! (table_name +:+ "_view") = Some v →
  held_entries cta "labelsets" existing →
  parse_labelset_data db table_name cta = (Ok tt, cta') →
  (∀ name, name ≠ "labelsets" → getattr cta' name = getattr cta name) ∧
  ∃ labelsets,
    held_entries cta' "labelsets" (existing ++ (VObj <$> labelsets)) ∧
    Forall2 (λ row l, build (new "Labelset" [VStr ""; VStr ""])
                        (labelset_of_row (columns v)
                           (str_remove "automated_annotation_" <$> columns v) row)
                      = Ok l)
      (rows v) labelsets.
Proof.
  intros Hv Hheld. unfold parse_labelset_data, bind at 1, lift at 1, select_all.
  rewrite Hv. destruct (rows v) as [|row rows] eqn:Hrows.
  - intros [= <-]. split; [done|]. exists []. by rewrite app_nil_r.
  - intros Hrun.
    destruct (extend_attr_appends _ _ _ _ _ _ Hheld Hrun) as (labelsets & -> & Hall).
    split.
    + intros name Hname. by apply getattr_setattr_ne.
    + exists labelsets. split; [|done].
      eexists. split; [apply getattr_setattr_eq|].
      inversion Hall as [|row0 l0 rows0 labelsets0]; subst. simpl truthy.
      by destruct existing.
Qed.

(** X16. When the annotation parser raises on a document that holds no
    annotations (an empty list or [None]), the document is left as it was:
    the annotations built before the failing row are not stored.  The same
    holds for the labelset parser and the labelsets. *)
Theorem failed_parser_stores_nothing (db : gmap string view) (table_name : string)
    cta (e : exn) (cta' : pyobj) :
  ((∀ cur, getattr cta "annotations" = Some cur → truthy cur = false) →
   parse_annotation_data db table_name cta = (Raise e, cta') → cta' = cta) ∧
  ((∀ cur, getattr cta "labelsets" = Some cur → truthy cur = false) →
   parse_labelset_data db table_name cta = (Raise e, cta') → cta' = cta).
Proof.
  split; intros Hfalse.
  - unfold parse_annotation_data, bind at 1, lift at 1.
    destruct (select_all db (table_name +:+ "_view")) as [v|e']; [|by intros [= _ <-]].
    destruct (rows v) as [|row rows]; [done|]. by apply extend_attr_raises.
  - unfold parse_labelset_data, bind at 1, lift at 1.
    destruct (select_all db (table_name +:+ "_view")) as [v|e']; [|by intros [= _ <-]].
    destruct (rows v) as [|row rows]; [done|]. by apply extend_attr_raises.
Qed.

Lemma index_of_elem (x : string) (l : list string) (i : nat) :
  index_of x l = Some i → x ∈ l.
Proof.
  intros [Hi _]%index_of_first. by eapply list_elem_of_lookup_2.
Qed.

(** X17. For a labelset row whose [algorithm_name] (among the renamed
    columns) is a non-empty string without brackets: when the labelset is
    built without an exception, its [automated_annotation] is an object whose
    [algorithm_name] is that string, provided the class has that field and no
    override record names it. *)
Theorem automated_annotation_has_algorithm_name columns
    (renamed_columns : list string) row o (labelset : pyobj) (s : string) :
  row_at renamed_columns row "algorithm_name" = Ok (CText s) →
  s ≠ "" →
  startswith "[" s && endswith "]" s = false →
  hasattr (new "AutomatedAnnotation" [VStr ""; VStr ""; VStr ""; VStr ""])
    "algorithm_name" = true →
  "algorithm_name" ∉ override_names renamed_columns row →
  labelset_of_row columns renamed_columns row o = (Ok tt, labelset) →
  ∃ automated_annotation,
    getattr labelset "automated_annotation" = Some (VObj automated_annotation) ∧
    getattr automated_annotation "algorithm_name" = Some (VStr s).
Proof.
  intros Hrow Hs Hplain Hattr Hnot. rewrite labelset_of_row_cases.
  destruct (auto_fill_object_from_row columns row o) as [[[]|e] mapped]; [|done].
  rewrite Hrow. simpl. destruct (String.eqb_spec s ""); [done|]. simpl.
  unfold build.
  destruct (auto_fill_object_from_row renamed_columns row _)
    as [[[]|e] automated_annotation] eqn:Hfill; [|done].
  intros [= <-]. exists automated_annotation.
  split; [apply getattr_setattr_eq|].
  destruct (loop_beside_overrides renamed_columns row "algorithm_name" renamed_columns
              _ _ Hnot Hattr Hfill) as [_ Hvals].
  destruct Hvals as (value & Hvalue & Hres).
  { unfold row_at in Hrow.
    destruct (index_of "algorithm_name" renamed_columns) as [i|] eqn:Hi; [|done].
    by eapply index_of_elem. }
  rewrite Hrow in Hvalue. injection Hvalue as <-. simpl in Hres.
  destruct (String.eqb_spec s ""); [done|]. simpl in Hres.
  destruct Hres as (v' & Hv' & Hget). rewrite Hplain in Hv'. by injection Hv' as <-.
Qed.

End sections_more.

(** * The renaming of the labelset columns *)

Lemma prefix_app (p s : string) : String.prefix p (p +:+ s) = true.
Proof.
  induction p as [|a p IH]; simpl; [by destruct s|].
  destruct (Ascii.ascii_dec a a); [done|congruence].
Qed.

Lemma prefix_split (p s : string) :
  String.prefix p s = true → ∃ q, s = p +:+ q.
Proof.
  revert s. induction p as [|a p IH]; intros s Hp; [by exists s|].
  destruct s as [|b s]; [done|]. simpl in Hp.
  destruct (Ascii.ascii_dec a b) as [->|]; [|done].
  destruct (IH s Hp) as [q ->]. by exists q.
Qed.

Lemma remove_all_from_skip (old p s : string) :
  remove_all_from old (String.length p) (p +:+ s) = remove_all_from old 0 s.
Proof. induction p as [|a p IH]; [done|]. simpl. exact IH. Qed.

Lemma remove_all_from_cons (old : string) (a : ascii) (s : string) :
  remove_all_from old 0 (String a s) =
  if String.prefix old (String a s)
  then remove_all_from old (String.length old - 1) s
  else String a (remove_all_from old 0 s).
Proof. reflexivity. Qed.

Lemma str_remove_leading (old s : string) :
  old ≠ "" → str_remove old (old +:+ s) = str_remove old s.
Proof.
  intros Hold. unfold str_remove. destruct old as [|a old]; [done|].
  change (String a old +:+ s) with (String a (old +:+ s)) at 1.
  rewrite remove_all_from_cons.
  change (String a (old +:+ s)) with (String a old +:+ s).
  rewrite prefix_app.
  replace (String.length (String a old) - 1)%nat with (String.length old)
    by (simpl; lia).
  apply remove_all_from_skip.
Qed.

Lemma str_remove_no_occurrence (old s : string) :
  (∀ p q, s ≠ p +:+ old +:+ q) → str_remove old s = s.
Proof.
  unfold str_remove. induction s as [|a s IH]; intros Hno; [done|].
  rewrite remove_all_from_cons. destruct (String.prefix old (String a s)) eqn:Hp.
  - destruct (prefix_split _ _ Hp) as [q Hq]. by destruct (Hno "" q).
  - f_equal. apply IH. intros p q ->. by destruct (Hno (String a p) q).
Qed.

(** X18. The renaming of line 102 turns a column name made of the prefix
    [automated_annotation_] and a rest that does not contain the prefix into
    that rest, and leaves a name that does not contain the prefix as it
    is. *)
Theorem renamed_column_loses_prefix (old x : string) :
  old ≠ "" →
  (∀ p q, x ≠ p +:+ old +:+ q) →
  str_remove old (old +:+ x) = x ∧ str_remove old x = x.
Proof.
  intros Hold Hno. rewrite str_remove_leading by done.
  split; by apply str_remove_no_occurrence.
Qed.

(** * The metadata parser, and overrides in the annotation parser *)

Section metadata_more.

Context `{Imports}.

Implicit Types (o cta : pyobj) (columns : list string) (row : list cell).

(** X19. The metadata parser maps at most the first row of its view: its
    result is [True] exactly when the view has a row, a view without rows
    leaves the document as it was, and whatever the outcome no attribute of
    the document whose name is not a column of the view changes (the
    annotations and labelsets of the document are safe from a metadata view
    without such columns). *)
Theorem metadata_parser_frame (db : gmap string view) (table_name : string)
    (v : view) cta (r : outcome bool) (cta' : pyobj) :
  db !! (table_name +:+ "_view") = Some v →
  parse_metadata_data db table_name cta = (r, cta') →
  (∀ name, name ∉ columns v → getattr cta' name = getattr cta name) ∧
  (rows v = [] → r = Ok false ∧ cta' = cta) ∧
  (∀ row rest, rows v = row :: rest →
     (∀ b, r = Ok b → b = true) ∧
     (auto_fill_object_from_row (columns v) row cta).2 = cta').
Proof.
  intros Hv. unfold parse_metadata_data, bind at 1, lift at 1, select_all.
  rewrite Hv. destruct (rows v) as [|row rest].
  - intros [= <- <-]. by repeat split.
  - unfold bind, ret.
    destruct (auto_fill_object_from_row (columns v) row cta) as [[[]|e] s] eqn:Hfill;
      intros [= <- <-].
    + split; [|split; [done|]].
      * cut (ob_class s = ob_class cta ∧ ∀ name, name ∉ columns v →
               ob_dict s !! name = ob_dict cta !! name).
        { intros [Hclass Hdict] name Hname. unfold getattr.
          by rewrite Hclass, Hdict. }
        revert Hfill.
        apply (mapping_preserves (λ t, ob_class t = ob_class cta ∧
                 ∀ name, name ∉ columns v → ob_dict t !! name = ob_dict cta !! name));
          [|done].
        intros name x t Hname [Hclass Hdict]. split; [done|].
        intros name' Hname'. simpl. rewrite lookup_insert_ne; [by apply Hdict|].
        by intros ->.
      * intros row' rest' [= <- <-]. rewrite Hfill. split; [|done]. by intros b [= <-].
    + split; [|split; [done|]].
      * cut (ob_class s = ob_class cta ∧ ∀ name, name ∉ columns v →
               ob_dict s !! name = ob_dict cta !! name).
        { intros [Hclass Hdict] name Hname. unfold getattr.
          by rewrite Hclass, Hdict. }
        revert Hfill.
        apply (mapping_preserves (λ t, ob_class t = ob_class cta ∧
                 ∀ name, name ∉ columns v → ob_dict t !! name = ob_dict cta !! name));
          [|done].
        intros name x t Hname [Hclass Hdict]. split; [done|].
        intros name' Hname'. simpl. rewrite lookup_insert_ne; [by apply Hdict|].
        by intros ->.
      * intros row' rest' [= <- <-]. rewrite Hfill. split; [|done]. by intros b.
Qed.

(** Override records that were applied without an exception have set their
    columns in the instance dictionary. *)
Lemma overrides_set_keys columns (msgs : list pyval) o o' (name : string) :
  for_each msgs (apply_override columns) o = (Ok tt, o') →
  (is_Some (ob_dict o !! name) ∨
   name ∈ omap (λ msg, match getitem msg "column" with
                       | Ok column => in_columns column columns
                       | Raise _ => None
                       end) msgs) →
  is_Some (ob_dict o' !! name).
Proof.
  revert o. induction msgs as [|msg msgs IH]; intros o Hrun Hname.
  - inversion Hrun; subst. destruct Hname as [?|?%elem_of_nil]; done.
  - rewrite for_each_cons, apply_override_cases in Hrun. simpl in Hname.
    destruct (getitem msg "column") as [column|e]; [|done].
    destruct (in_columns column columns) as [name'|] eqn:Hname'.
    + destruct (getitem msg "value") as [x|e]; [|done].
      apply (IH _ Hrun). destruct (decide (name = name')) as [->|Hne].
      * left. simpl. rewrite lookup_insert_eq. by eexists.
      * destruct Hname as [Hkey|Hin].
        -- left. simpl. by rewrite lookup_insert_ne.
        -- apply elem_of_cons in Hin as [?|?]; [done|by right].
    + apply (IH _ Hrun). by destruct Hname as [?|?]; [left|right].
Qed.

Lemma mapped_overrides_are_keys columns row o o' (name : string) :
  auto_fill_object_from_row columns row o = (Ok tt, o') →
  name ∈ override_names columns row →
  is_Some (ob_dict o' !! name).
Proof.
  intros Hrun Hname. unfold auto_fill_object_from_row in Hrun.
  destruct columns as [|c cs] eqn:Hcolumns.
  { by apply override_names_listed, elem_of_nil in Hname. }
  rewrite <- Hcolumns in *. rewrite Hcolumns in Hrun at 1.
  destruct (mapping_ends_with_message _ _ _ _ _ _ Hrun) as [o1 Hmsg].
  unfold apply_message, bind, lift, ret in Hmsg. unfold override_names in Hname.
  destruct (contains columns "message"); [|by apply elem_of_nil in Hname].
  destruct (row_at columns row "message") as [text|e]; [|done].
  destruct (cell_truthy text); [|by apply elem_of_nil in Hname].
  destruct (json_loads_cell text) as [messages|e]; [|done].
  destruct (py_iter messages) as [msgs|e]; [|done].
  eapply overrides_set_keys; [exact Hmsg|by right].
Qed.

(** X20. A column that an override record names gets no user annotation,
    even when it is no field of the annotation class: the override has set it
    as an attribute of the annotation, and the annotation parser takes every
    key of [vars(annotation)] for a field. *)
Theorem overridden_column_gets_no_user_annotation columns row o (a : pyobj)
    (column : string) :
  annotation_of_row columns row o = (Ok tt, a) →
  column ∈ override_names columns row →
  ∃ (mapped : pyobj) (user_columns : list string) (uas : list pyval),
    a = setattr "user_annotations" (VList uas) mapped ∧
    Forall2 (is_user_annotation columns row) user_columns uas ∧
    (column ∉ user_columns) ∧
    is_Some (vars mapped !! column).
Proof.
  rewrite annotation_of_row_cases.
  destruct (auto_fill_object_from_row columns row o) as [[[]|e] mapped] eqn:Hfill;
    [|done].
  destruct (for_each columns _ []) as [[[]|e] l] eqn:Hloop; [|done].
  intros [= <-] Hname.
  destruct (user_annotations_loop _ _ _ _ _ _ Hloop) as (uas & -> & Huas).
  pose proof (mapped_overrides_are_keys _ _ _ _ _ Hfill Hname) as Hkey.
  exists mapped, (filter (user_column mapped) columns), uas.
  split; [done|]. split; [done|]. split; [|done].
  rewrite list_elem_of_filter. by intros [[Hfield _] _].
Qed.

End metadata_more.

(** * The further properties on the sample data *)

Module MoreExamples.

Import Reference Samples.

#[local] Existing Instance imports.

Lemma mapping_touches_listed_columns_only_witness :
  ob_class (auto_fill_object_from_row annotation_columns custom_override_row
              annotation).2 = ob_class annotation ∧
  ∀ name, name ∉ annotation_columns →
    getattr (auto_fill_object_from_row annotation_columns custom_override_row
               annotation).2 name = getattr annotation name.
Proof.
  apply (mapping_touches_listed_columns_only annotation_columns custom_override_row
           annotation (Ok tt)).
  vm_compute. reflexivity.
Defined.

Lemma positional_value_beside_overrides_witness :
  ∃ value, row_at annotation_columns corrected_row "cell_set_accession" = Ok value ∧
    match value with
    | CNull =>
        getattr (auto_fill_object_from_row annotation_columns corrected_row
                   annotation).2 "cell_set_accession"
        = getattr annotation "cell_set_accession"
    | CInt z =>
        z = 0 ∧
        getattr (auto_fill_object_from_row annotation_columns corrected_row
                   annotation).2 "cell_set_accession"
        = getattr annotation "cell_set_accession"
    | CText s =>
        if String.eqb s ""
        then getattr (auto_fill_object_from_row annotation_columns corrected_row
                        annotation).2 "cell_set_accession"
             = getattr annotation "cell_set_accession"
        else if startswith "[" s && endswith "]" s
             then ∃ v, literal_eval s = Ok v ∧
                    getattr (auto_fill_object_from_row annotation_columns
                               corrected_row annotation).2 "cell_set_accession"
                    = Some v
             else getattr (auto_fill_object_from_row annotation_columns corrected_row
                             annotation).2 "cell_set_accession" = Some (VStr s)
    end.
Proof.
  apply (positional_value_beside_overrides annotation_columns corrected_row annotation).
  - vm_compute. reflexivity.
  - apply contains_true. reflexivity.
  - reflexivity.
  - apply contains_false. reflexivity.
Defined.

Lemma well_formed_row_is_mapped_witness :
  ∃ o', auto_fill_object_from_row plain_columns plain_row annotation = (Ok tt, o').
Proof.
  apply well_formed_row_is_mapped.
  - left. reflexivity.
  - intros column Hin Hattr. unfold plain_columns in Hin.
    repeat (apply elem_of_cons in Hin as [->|Hin]);
      try (by apply elem_of_nil in Hin); try discriminate Hattr.
    + exists (CText "CS002"). split; [reflexivity|]. intros Hbr. discriminate Hbr.
    + exists (CText "Glia"). split; [reflexivity|]. intros Hbr. discriminate Hbr.
    + exists (CText "[1,2,3]"). split; [reflexivity|]. intros _.
      exists (VList [VInt 1; VInt 2; VInt 3]). vm_compute. reflexivity.
    + exists CNull. split; [reflexivity|exact I].
Defined.

Lemma integer_cell_raises_witness :
  ∃ e' o', auto_fill_object_from_row plain_columns integer_row annotation
           = (Raise e', o').
Proof.
  apply (integer_cell_raises plain_columns integer_row annotation "cell_label" 7).
  - apply contains_true. reflexivity.
  - reflexivity.
  - reflexivity.
  - discriminate.
Defined.

Example integer_cell_exception :
  (auto_fill_object_from_row plain_columns integer_row annotation).1
  = Raise AttributeError.
Proof. vm_compute. reflexivity. Qed.

Lemma short_row_raises_witness :
  ∃ e' o', auto_fill_object_from_row plain_columns short_row annotation
           = (Raise e', o').
Proof.
  apply (short_row_raises plain_columns short_row annotation "cell_label" 1).
  - reflexivity.
  - simpl. lia.
  - reflexivity.
Defined.

Lemma malformed_override_raises_witness :
  ∃ e' o', auto_fill_object_from_row annotation_columns valueless_override_row
             annotation = (Raise e', o').
Proof.
  apply (malformed_override_raises annotation_columns valueless_override_row annotation
           (CText (dquote "[{'column':'cell_set_accession','value':'CS009'},{'column':'cell_label'}]"))
           (VList [VDict [(VStr "column", VStr "cell_set_accession");
                          (VStr "value", VStr "CS009")];
                   VDict [(VStr "column", VStr "cell_label")]])
           [VDict [(VStr "column", VStr "cell_set_accession");
                   (VStr "value", VStr "CS009")];
            VDict [(VStr "column", VStr "cell_label")]]
           (VDict [(VStr "column", VStr "cell_label")])).
  - apply contains_true. reflexivity.
  - reflexivity.
  - reflexivity.
  - vm_compute. reflexivity.
  - reflexivity.
  - right. left.
  - right. exists "cell_label", KeyError. split; [reflexivity|].
    split; [apply contains_true; reflexivity|reflexivity].
Defined.

(** The record before the faulty one has been applied when the exception is
    raised. *)
Example malformed_override_partial :
  let run := auto_fill_object_from_row annotation_columns valueless_override_row
               annotation in
  run.1 = Raise KeyError ∧ getattr run.2 "cell_set_accession" = Some (VStr "CS009").
Proof. vm_compute. split; reflexivity. Qed.

Lemma uniterable_message_raises_witness :
  ∃ column rest, annotation_columns = column :: rest ∧
    auto_fill_object_from_row annotation_columns number_message_row annotation =
    (Raise (match (assign_column annotation_columns number_message_row column
                     annotation).1 with
            | Raise e0 => e0
            | Ok _ => TypeError
            end),
     (assign_column annotation_columns number_message_row column annotation).2).
Proof.
  apply (uniterable_message_raises annotation_columns number_message_row annotation
           (CText "5") (VInt 5) TypeError).
  - apply contains_true. reflexivity.
  - reflexivity.
  - reflexivity.
  - vm_compute. reflexivity.
  - reflexivity.
Defined.

Lemma classified_names_have_suffix_witness :
  endswith_any cas_table_postfixes "CCN_labelset" = true.
Proof.
  apply (classified_names_have_suffix sample_db
           ["CCN_annotation_transfer"; "CCN_metadata"; "CCN_annotation";
            "CCN_labelset"; "CCN_annotation_transfer"]).
  - vm_compute. reflexivity.
  - apply contains_true. reflexivity.
Defined.

Lemma dispatch_by_suffix_witness :
  dispatch sample_db "CCN_annotation_transfer" linked_cta
  = parse__annotation_transfer_data sample_db "CCN_annotation_transfer" linked_cta.
Proof.
  apply (dispatch_by_suffix sample_db "CCN_annotation_transfer" linked_cta).
  reflexivity.
Defined.

Lemma transfers_without_target_are_skipped_witness :
  parse__annotation_transfer_data faulty_db "CCN_annotation_transfer" linked_cta
  = (Ok tt, linked_cta).
Proof.
  apply (transfers_without_target_are_skipped faulty_db "CCN_annotation_transfer"
           (View ["transferred_cell_label"; "source_taxonomy"]
              [[CText "Glial cell"; CText "Atlas 1"]])).
  - reflexivity.
  - left. apply contains_false. reflexivity.
Defined.

(** The transfer table of the sample database, parsed before any annotation
    exists: all its transfers are dropped. *)
Lemma unmatched_transfers_are_dropped_witness :
  parse__annotation_transfer_data sample_db "CCN_annotation_transfer" fresh_cta
  = (Ok tt, fresh_cta).
Proof.
  apply (unmatched_transfers_are_dropped sample_db "CCN_annotation_transfer"
           (View transfer_columns
              [[CText "CS002"; CText "Glial cell"; CText "Atlas 1"];
               [CText "CS404"; CText "Unknown"; CText "Atlas 1"];
               [CNull; CText "Nothing"; CText "Atlas 1"]])
           fresh_cta [] []).
  - reflexivity.
  - reflexivity.
  - constructor.
  - intros row Hrow. simpl in Hrow.
    repeat (apply elem_of_cons in Hrow as [->|Hrow]);
      try (by apply elem_of_nil in Hrow);
      (eexists; split; [reflexivity|constructor]).
Defined.

Lemma transfer_parser_keeps_annotations_witness :
  (∀ name, name ≠ "annotations" →
     getattr (parse__annotation_transfer_data sample_db "CCN_annotation_transfer"
                linked_cta).2 name = getattr linked_cta name) ∧
  ∃ annotations',
    getattr (parse__annotation_transfer_data sample_db "CCN_annotation_transfer"
               linked_cta).2 "annotations" = Some (VList annotations') ∧
    Forall2 (λ a a', ∀ name, name ≠ "transferred_annotations" →
                       val_getattr a' name = val_getattr a name)
      linked_annotations annotations'.
Proof.
  apply (transfer_parser_keeps_annotations sample_db "CCN_annotation_transfer"
           linked_cta linked_annotations (Ok tt)).
  - reflexivity.
  - vm_compute. reflexivity.
Defined.

Lemma annotation_parser_appends_witness :
  (∀ name, name ≠ "annotations" →
     getattr (parse_annotation_data sample_db "CCN_annotation" linked_cta).2 name
     = getattr linked_cta name) ∧
  ∃ annotations,
    held_entries (parse_annotation_data sample_db "CCN_annotation" linked_cta).2
      "annotations" (linked_annotations ++ (VObj <$> annotations)) ∧
    Forall2 (λ row a, build (new "Annotation" [VStr ""; VStr ""])
                        (annotation_of_row annotation_columns row) = Ok a)
      [corrected_row;
       [CText "CS002"; CText "Glia"; CNull; CNull];
       [CText "CS002"; CText "Astrocyte"; CText "baz"; CText ""]]
      annotations.
Proof.
  apply (annotation_parser_appends sample_db "CCN_annotation"
           (View annotation_columns
              [corrected_row;
               [CText "CS002"; CText "Glia"; CNull; CNull];
               [CText "CS002"; CText "Astrocyte"; CText "baz"; CText ""]])).
  - reflexivity.
  - exists (VList linked_annotations). split; reflexivity.
  - vm_compute. reflexivity.
Defined.

(** The fresh document has [None] for its labelsets. *)
Lemma labelset_parser_appends_witness :
  (∀ name, name ≠ "labelsets" →
     getattr (parse_labelset_data sample_db "CCN_labelset" fresh_cta).2 name
     = getattr fresh_cta name) ∧
  ∃ labelsets,
    held_entries (parse_labelset_data sample_db "CCN_labelset" fresh_cta).2
      "labelsets" ([] ++ (VObj <$> labelsets)) ∧
    Forall2 (λ row l, build (new "Labelset" [VStr ""; VStr ""])
                        (labelset_of_row labelset_columns
                           (str_remove "automated_annotation_" <$> labelset_columns)
                           row) = Ok l)
      [[CText "cluster"; CText "Cluster level"; CText ""; CText ""]; algorithm_row]
      labelsets.
Proof.
  apply (labelset_parser_appends sample_db "CCN_labelset"
           (View labelset_columns
              [[CText "cluster"; CText "Cluster level"; CText ""; CText ""];
               algorithm_row])).
  - reflexivity.
  - exists VNone. split; reflexivity.
  - vm_compute. reflexivity.
Defined.

(** The first row of the faulty annotation view is mapped, the second raises:
    the document keeps its empty list of annotations. *)
Lemma failed_parser_stores_nothing_witness :
  (parse_annotation_data faulty_db "CCN_annotation" fresh_cta).2 = fresh_cta.
Proof.
  apply (proj1 (failed_parser_stores_nothing faulty_db "CCN_annotation" fresh_cta
                  JSONDecodeError _)).
  - intros cur Hcur. vm_compute in Hcur. injection Hcur as <-. reflexivity.
  - vm_compute. reflexivity.
Defined.

Lemma automated_annotation_has_algorithm_name_witness :
  ∃ automated_annotation,
    getattr (labelset_of_row labelset_columns
               (str_remove "automated_annotation_" <$> labelset_columns)
               algorithm_row (new "Labelset" [VStr ""; VStr ""])).2
      "automated_annotation" = Some (VObj automated_annotation) ∧
    getattr automated_annotation "algorithm_name" = Some (VStr "SciKit-v2").
Proof.
  apply (automated_annotation_has_algorithm_name labelset_columns
           (str_remove "automated_annotation_" <$> labelset_columns) algorithm_row
           (new "Labelset" [VStr ""; VStr ""])).
  - reflexivity.
  - discriminate.
  - reflexivity.
  - reflexivity.
  - apply contains_false. reflexivity.
  - vm_compute. reflexivity.
Defined.

Lemma renamed_column_loses_prefix_witness :
  str_remove "automated_annotation_" ("automated_annotation_" +:+ "algorithm_name")
  = "algorithm_name" ∧
  str_remove "automated_annotation_" "algorithm_name" = "algorithm_name".
Proof.
  apply renamed_column_loses_prefix.
  - discriminate.
  - intros p q Heq. apply (f_equal String.length) in Heq.
    rewrite !string_length_app in Heq. simpl in Heq. lia.
Defined.

Lemma metadata_parser_frame_witness :
  (∀ name, name ∉ ["author_name"; "title"; "row_number"; "message"] →
     getattr (parse_metadata_data sample_db "CCN_metadata" linked_cta).2 name
     = getattr linked_cta name) ∧
  (rows (View ["author_name"; "title"; "row_number"; "message"]
           [[CText "Jane Doe"; CText "Atlas"; CInt 1; CNull]]) = [] →
   (parse_metadata_data sample_db "CCN_metadata" linked_cta).1 = Ok false ∧
   (parse_metadata_data sample_db "CCN_metadata" linked_cta).2 = linked_cta) ∧
  (∀ row rest,
     rows (View ["author_name"; "title"; "row_number"; "message"]
             [[CText "Jane Doe"; CText "Atlas"; CInt 1; CNull]]) = row :: rest →
     (∀ b, (parse_metadata_data sample_db "CCN_metadata" linked_cta).1 = Ok b →
           b = true) ∧
     (auto_fill_object_from_row ["author_name"; "title"; "row_number"; "message"]
        row linked_cta).2
     = (parse_metadata_data sample_db "CCN_metadata" linked_cta).2).
Proof.
  apply (metadata_parser_frame sample_db "CCN_metadata"
           (View ["author_name"; "title"; "row_number"; "message"]
              [[CText "Jane Doe"; CText "Atlas"; CInt 1; CNull]])).
  - reflexivity.
  - vm_compute. reflexivity.
Defined.

Lemma overridden_column_gets_no_user_annotation_witness :
  ∃ (mapped : pyobj) (user_columns : list string) (uas : list pyval),
    (annotation_of_row annotation_columns custom_override_row annotation).2
    = setattr "user_annotations" (VList uas) mapped ∧
    Forall2 (is_user_annotation annotation_columns custom_override_row)
      user_columns uas ∧
    ("custom_field" ∉ user_columns) ∧
    is_Some (vars mapped !! "custom_field").
Proof.
  apply (overridden_column_gets_no_user_annotation annotation_columns
           custom_override_row annotation).
  - vm_compute. reflexivity.
  - apply contains_true. reflexivity.
Defined.

(** The value [foo] of the sample row is in no user annotation, and the
    attribute that the override has set holds [bar]. *)
Example overridden_custom_field :
  let a := (annotation_of_row annotation_columns custom_override_row annotation).2 in
  getattr a "user_annotations" = Some (VList []) ∧
  getattr a "custom_field" = Some (VStr "bar").
Proof. vm_compute. split; reflexivity. Qed.

End MoreExamples.

(** * The rows of a transfer view *)

Section transfer_parser.

Context `{Imports}.

Implicit Types (o cta : pyobj) (columns : list string) (row : list cell).



End transfer_parser.

(** * The amended claims on the sample data *)

Module AmendedExamples.

Import Reference Samples.

#[local] Existing Instance imports.

(** C4 as stated fails: in a row without [message], the bracketed string
    [[not, valid]] in the column [synonyms] is no literal, the call raises,
    and the field does not end at a parsed literal. *)
Lemma positional_value_may_not_be_assigned :
  ¬ (∀ (I : Imports) (columns : list string) (row : list cell) (o o' : pyobj)
       (r : outcome unit) (column : string),
       no_message columns row →
       auto_fill_object_from_row columns row o = (r, o') →
       column ∈ columns →
       hasattr o column = true →
       ∃ value, row_at columns row column = Ok value ∧
         match value with
         | CNull => getattr o' column = getattr o column
         | CInt z =>
             if z =? 0 then getattr o' column = getattr o column
             else getattr o' column = Some (VInt z)
         | CText s =>
             if String.eqb s ""
             then getattr o' column = getattr o column
             else if startswith "[" s && endswith "]" s
                  then ∃ v, literal_eval s = Ok v ∧ getattr o' column = Some v
                  else getattr o' column = Some (VStr s)
         end).
Proof.
  intros Hclaim.
  destruct (Hclaim imports plain_columns invalid_literal_row annotation
              (auto_fill_object_from_row plain_columns invalid_literal_row annotation).2
              (Raise SyntaxError) "synonyms") as (value & Hvalue & Hres).
  - left. reflexivity.
  - vm_compute. reflexivity.
  - apply contains_true. reflexivity.
  - reflexivity.
  - vm_compute in Hvalue. injection Hvalue as <-.
    simpl in Hres. destruct Hres as (v & Hv & _).
    vm_compute in Hv. discriminate Hv.
Qed.

(** A non-zero integer in the column of a field: the call raises and the
    field keeps its value. *)
Example integer_cell_not_assigned :
  let run := auto_fill_object_from_row plain_columns integer_row annotation in
  no_message plain_columns integer_row ∧
  run.1 = Raise AttributeError ∧
  getattr run.2 "cell_label" = Some (VStr "").
Proof. split; [by left|]. vm_compute. split; reflexivity. Qed.


Example transfer_parser_result :
  let run := parse__annotation_transfer_data transfer_db "CCN_annotation_transfer"
               linked_cta in
  run.1 = Ok tt ∧
  match getattr run.2 "annotations" with
  | Some (VList annotations) =>
      (λ a, val_getattr a "transferred_annotations") <$> annotations
  | _ => []
  end
  = [Ok VNone;
     Ok (VList [VObj (auto_fill_object_from_row transfer_columns
                        matching_transfer_row
                        (new "AnnotationTransfer"
                           [VStr ""; VStr ""; VStr ""; VStr ""; VStr ""])).2]);
     Ok (VList [VStr "earlier"])].
Proof. vm_compute. split; reflexivity. Qed.


End AmendedExamples.
